(** * The wire-protocol debug stub [minimal_server.py]

    A shallow embedding of [CapnWebHandler.handle_batch_request] and of the
    Python operations it applies to decoded JSON, followed by the properties
    of the handler's responses.

    Conventions of the model.
    - A Python [str] is the list of its Unicode code points.
    - [json.loads] is embedded after CPython's C scanner ([_json.c]) with its
      default settings ([strict=True], constants [NaN], [Infinity],
      [-Infinity] accepted).  Only [JSONDecodeError] is modelled as a decoding
      failure; interpreter resource limits (recursion depth, the integer
      digit limit) are not part of the model.
    - A JSON number with a fraction or an exponent is kept as the decimal it
      denotes; Python rounds it to a binary64.  Arithmetic on such numbers and
      their textual form are outside the model (result [Outside]).
    - The handler is modelled from the decoded request body on, that is
      after [self.rfile.read(content_length).decode('utf-8')].
    - Calls to [logger] write to the process log only and never to the
      response; they are left out. *)

From Stdlib Require Import List ZArith NArith Bool Lia String Ascii.
From Stdlib Require Import DecimalString.
From Stdlib Require Import SpecFloat.
From Stdlib Require DecimalPos.
Import ListNotations.

Set Implicit Arguments.
Set Warnings "-register-all".

(* ------------------------------------------------------------------ *)
(** ** Python strings *)

Definition pystr := list N.

Definition nl : N := 10%N.

(** Text constants are written with an apostrophe wherever Python's literal
    carries a quotation mark: [txt] maps U+0027 to U+0022 and every other
    character to its own code point. *)
Definition txt_char (a : ascii) : N :=
  let n := N_of_ascii a in if N.eqb n 39 then 34%N else n.

Definition txt (s : string) : pystr := map txt_char (list_ascii_of_string s).

Fixpoint pystr_eqb (a b : pystr) : bool :=
  match a, b with
  | [], [] => true
  | x :: a', y :: b' => N.eqb x y && pystr_eqb a' b'
  | _, _ => false
  end.

(** [str.isspace] on one character (CPython's [_PyUnicode_IsWhitespace]). *)
Definition isspace (c : N) : bool :=
  ((9 <=? c) && (c <=? 13) || (28 <=? c) && (c <=? 32)
   || (c =? 133) || (c =? 160) || (c =? 5760)
   || (8192 <=? c) && (c <=? 8202)
   || (c =? 8232) || (c =? 8233) || (c =? 8239) || (c =? 8287)
   || (c =? 12288))%N.

Fixpoint lstrip (s : pystr) : pystr :=
  match s with
  | c :: r => if isspace c then lstrip r else s
  | [] => []
  end.

(** [s.strip()] *)
Definition strip (s : pystr) : pystr := rev (lstrip (rev (lstrip s))).

(** [s.split(sep)] for a one-character separator: never the empty list. *)
Fixpoint str_split (sep : N) (s : pystr) : list pystr :=
  match s with
  | [] => [[]]
  | c :: r =>
      if N.eqb c sep then [] :: str_split sep r
      else match str_split sep r with
           | p :: ps => (c :: p) :: ps
           | [] => [[c]]
           end
  end.

(** [sep in s] *)
Definition contains (c : N) (s : pystr) : bool := existsb (N.eqb c) s.

(* ------------------------------------------------------------------ *)
(** ** Decoded JSON values *)

(** A Python float read from a JSON document: the decimal
    [(-1)^neg * m * 10^e] before rounding, or one of the constants. *)
Inductive pyfloat : Type :=
| FNaN
| FInf (neg : bool)
| FDec (neg : bool) (m : N) (e : Z).

Inductive pyvalue : Type :=
| PNone
| PBool (b : bool)
| PInt (z : Z)
| PFloat (f : pyfloat)
| PStr (s : pystr)
| PList (l : list pyvalue)
| PDict (kv : list (pystr * pyvalue)).

(** [d[k] = v] on an insertion-ordered dict: a repeated key keeps its
    place and takes the new value. *)
Fixpoint dict_set (kv : list (pystr * pyvalue)) (k : pystr) (v : pyvalue)
  : list (pystr * pyvalue) :=
  match kv with
  | [] => [(k, v)]
  | (k', v') :: r =>
      if pystr_eqb k' k then (k', v) :: r else (k', v') :: dict_set r k v
  end.

(* ------------------------------------------------------------------ *)
(** ** Exceptions and the interpreter *)

(** The exceptions the handler meets.  [JSONDecodeError] is the one it
    catches; in Python it is a subclass of [ValueError], and it is told
    apart from it here as [except json.JSONDecodeError] tells it apart. *)
Inductive pyexn : Type :=
| TypeError
| KeyError
| IndexError
| UnicodeEncodeError
| JSONDecodeError
| ValueError
| RecursionError
| OverflowError.

(** The result of a Python expression: a value or an exception. *)
Inductive res (A : Type) : Type :=
| Ok (a : A)
| Raise (e : pyexn).

Arguments Raise {A} e.

Definition res_bind {A B : Type} (r : res A) (k : A -> res B) : res B :=
  match r with
  | Ok a => k a
  | Raise e => Raise e
  end.

(** [sys.get_int_max_str_digits()]: CPython converts no integer of more
    decimal digits from text or to text, and raises [ValueError] where it is
    asked to.  The server leaves the default in force. *)
Definition int_max_str_digits : nat := 4300.

(** [json.loads] enters one level of the interpreter's recursion for every
    array or object it is inside of, and the interpreter raises
    [RecursionError] once its recursion limit is reached.  How many levels
    are left when the handler calls [json.loads] depends on the limit in
    force and on the frames in use by then, so their number is a parameter
    of the model; no more is fixed of it than a lower bound. *)
Class interpreter : Type := { recursion_spare : nat }.

Definition recursion_headroom {py : interpreter} : nat :=
  (64 + recursion_spare)%nat.

(** CPython 3.11 under its default recursion limit of 1000, the server
    being started by [run_server]: [json.loads] as [handle_batch_request]
    calls it decodes 984 nested arrays and raises on one more. *)
Definition cpython : interpreter := {| recursion_spare := 920 |}.

(* ------------------------------------------------------------------ *)
(** ** json.loads *)

(** What a scanning function ends in: a value and the text after it, a
    [JSONDecodeError] ([Fail]), an exception of another class ([Crash]), or
    want of fuel. *)
Inductive scan (A : Type) : Type :=
| Done (a : A) (rest : pystr)
| Fail
| Crash (e : pyexn)
| Starved.

Arguments Fail {A}.
Arguments Crash {A} e.
Arguments Starved {A}.

Definition is_ws (c : N) : bool :=
  ((c =? 32) || (c =? 9) || (c =? 10) || (c =? 13))%N.

Fixpoint skip_ws (s : pystr) : pystr :=
  match s with
  | c :: r => if is_ws c then skip_ws r else s
  | [] => []
  end.

Definition is_digit (c : N) : bool := ((48 <=? c) && (c <=? 57))%N.

Definition hexval (c : N) : option N :=
  if is_digit c then Some (c - 48)%N
  else if ((97 <=? c) && (c <=? 102))%N then Some (c - 87)%N
  else if ((65 <=? c) && (c <=? 70))%N then Some (c - 55)%N
  else None.

Definition hex4 (a b c d : N) : option N :=
  match hexval a, hexval b, hexval c, hexval d with
  | Some x, Some y, Some z, Some w => Some (((x * 16 + y) * 16 + z) * 16 + w)%N
  | _, _, _, _ => None
  end.

Definition high_surrogate (u : N) : bool := ((55296 <=? u) && (u <=? 56319))%N.
Definition low_surrogate (u : N) : bool := ((56320 <=? u) && (u <=? 57343))%N.
Definition join_surrogates (hi lo : N) : N :=
  (65536 + (hi - 55296) * 1024 + (lo - 56320))%N.

Definition simple_escape (c : N) : option N :=
  if (c =? 34)%N then Some 34%N
  else if (c =? 92)%N then Some 92%N
  else if (c =? 47)%N then Some 47%N
  else if (c =? 98)%N then Some 8%N
  else if (c =? 102)%N then Some 12%N
  else if (c =? 110)%N then Some 10%N
  else if (c =? 114)%N then Some 13%N
  else if (c =? 116)%N then Some 9%N
  else None.

(** [scanstring] with [strict=True], entered after the opening quote. *)
Fixpoint scanstring (s : pystr) (acc : pystr) {struct s} : scan pystr :=
  match s with
  | [] => Fail
  | c :: r =>
      if (c =? 34)%N then Done (rev acc) r
      else if (c =? 92)%N then
        match r with
        | [] => Fail
        | e :: r1 =>
            if (e =? 117)%N then
              match r1 with
              | h1 :: h2 :: h3 :: h4 :: r2 =>
                  match hex4 h1 h2 h3 h4 with
                  | None => Fail
                  | Some u =>
                      if high_surrogate u then
                        match r2 with
                        | b :: u' :: g1 :: g2 :: g3 :: g4 :: r3 =>
                            if ((b =? 92) && (u' =? 117))%N then
                              match hex4 g1 g2 g3 g4 with
                              | None => Fail
                              | Some u2 =>
                                  if low_surrogate u2
                                  then scanstring r3 (join_surrogates u u2 :: acc)
                                  else scanstring r2 (u :: acc)
                              end
                            else scanstring r2 (u :: acc)
                        | _ => scanstring r2 (u :: acc)
                        end
                      else scanstring r2 (u :: acc)
                  end
              | _ => Fail
              end
            else
              match simple_escape e with
              | Some ch => scanstring r1 (ch :: acc)
              | None => Fail
              end
        end
      else if (c <? 32)%N then Fail
      else scanstring r (c :: acc)
  end.

(** The longest prefix of digits, and what follows it. *)
Fixpoint span_digits (s : pystr) : pystr * pystr :=
  match s with
  | c :: r =>
      if is_digit c then let (ds, r') := span_digits r in (c :: ds, r')
      else ([], s)
  | [] => ([], [])
  end.

Definition digits_value (ds : pystr) : N :=
  fold_left (fun acc c => (acc * 10 + (c - 48))%N) ds 0%N.

(** Integer part of a number: [0] or a digit [1-9] followed by digits. *)
Definition int_part (s : pystr) : option (pystr * pystr) :=
  match s with
  | c :: r =>
      if (c =? 48)%N then Some ([c], r)
      else if is_digit c then let (ds, r') := span_digits r in Some (c :: ds, r')
      else None
  | [] => None
  end.

(** Fraction: a point followed by at least one digit, else nothing. *)
Definition frac_part (s : pystr) : option (pystr * pystr) :=
  match s with
  | p :: d :: r =>
      if ((p =? 46) && is_digit d)%N
      then let (ds, r') := span_digits r in Some (d :: ds, r')
      else None
  | _ => None
  end.

(** Exponent: [e] or [E], an optional sign, at least one digit, else nothing. *)
Definition exp_part (s : pystr) : option (Z * pystr) :=
  match s with
  | e :: r =>
      if ((e =? 101) || (e =? 69))%N then
        let '(neg, r1) :=
          match r with
          | sg :: r' =>
              if (sg =? 45)%N then (true, r')
              else if (sg =? 43)%N then (false, r')
              else (false, r)
          | [] => (false, r)
          end in
        match span_digits r1 with
        | ([], _) => None
        | (ds, r2) =>
            let v := Z.of_N (digits_value ds) in
            Some (if neg then (- v)%Z else v, r2)
        end
      else None
  | [] => None
  end.

(** [_match_number]: an optional minus sign, the integer part, then an
    optional fraction and an optional exponent.  A number with neither is
    handed to [int], which raises [ValueError] above the digit limit; the
    others are handed to [float], which has no such limit. *)
Definition match_number (s : pystr) : scan pyvalue :=
  let '(neg, s1) :=
    match s with
    | c :: r => if (c =? 45)%N then (true, r) else (false, s)
    | [] => (false, s)
    end in
  match int_part s1 with
  | None => Fail
  | Some (ids, s2) =>
      let '(fds, s3) :=
        match frac_part s2 with
        | Some (fds, s3) => (Some fds, s3)
        | None => (None, s2)
        end in
      let '(ex, s4) :=
        match exp_part s3 with
        | Some (x, s4) => (Some x, s4)
        | None => (None, s3)
        end in
      match fds, ex with
      | None, None =>
          if (int_max_str_digits <? List.length ids)%nat then Crash ValueError
          else
            let v := Z.of_N (digits_value ids) in
            Done (PInt (if neg then (- v)%Z else v)) s4
      | _, _ =>
          let fd := match fds with Some d => d | None => [] end in
          let x := match ex with Some x => x | None => 0%Z end in
          Done (PFloat (FDec neg (digits_value (ids ++ fd))
                                 (x - Z.of_nat (List.length fd))%Z)) s4
      end
  end.

(** [s] starts with the word [w]: the rest of [s] after it. *)
Fixpoint after_word (w s : pystr) : option pystr :=
  match w, s with
  | [], _ => Some s
  | a :: w', b :: s' => if N.eqb a b then after_word w' s' else None
  | _ :: _, [] => None
  end.

(** [scan_once], [_parse_array] and [_parse_object].  [depth] is the number
    of arrays and objects that can still be entered: [scan_once] calls
    [Py_EnterRecursiveCall] before it parses one, its closing bracket
    included.  [fuel] bounds the number of nested calls of the model;
    [decode] supplies enough of it. *)
Fixpoint scan_once (fuel depth : nat) (s : pystr) {struct fuel}
  : scan pyvalue :=
  match fuel with
  | O => Starved
  | S fuel' =>
      match s with
      | [] => Fail
      | c :: r =>
          if (c =? 34)%N then
            match scanstring r [] with
            | Done k r' => Done (PStr k) r'
            | Fail => Fail
            | Crash e => Crash e
            | Starved => Starved
            end
          else if (c =? 123)%N then
            match depth with
            | O => Crash RecursionError
            | S depth' =>
                match skip_ws r with
                | c' :: r' =>
                    if (c' =? 125)%N then Done (PDict []) r'
                    else parse_object fuel' depth' (c' :: r') []
                | [] => Fail
                end
            end
          else if (c =? 91)%N then
            match depth with
            | O => Crash RecursionError
            | S depth' =>
                match skip_ws r with
                | c' :: r' =>
                    if (c' =? 93)%N then Done (PList []) r'
                    else parse_array fuel' depth' (c' :: r') []
                | [] => Fail
                end
            end
          else
            match after_word (txt "null") s with
            | Some r' => Done PNone r'
            | None =>
            match after_word (txt "true") s with
            | Some r' => Done (PBool true) r'
            | None =>
            match after_word (txt "false") s with
            | Some r' => Done (PBool false) r'
            | None =>
            match after_word (txt "NaN") s with
            | Some r' => Done (PFloat FNaN) r'
            | None =>
            match after_word (txt "Infinity") s with
            | Some r' => Done (PFloat (FInf false)) r'
            | None =>
            match after_word (txt "-Infinity") s with
            | Some r' => Done (PFloat (FInf true)) r'
            | None => match_number s
            end end end end end end
      end
  end

with parse_array (fuel depth : nat) (s : pystr) (acc : list pyvalue)
  {struct fuel} : scan pyvalue :=
  match fuel with
  | O => Starved
  | S fuel' =>
      match scan_once fuel' depth s with
      | Done v r =>
          match skip_ws r with
          | c :: r' =>
              if (c =? 93)%N then Done (PList (rev (v :: acc))) r'
              else if (c =? 44)%N
              then parse_array fuel' depth (skip_ws r') (v :: acc)
              else Fail
          | [] => Fail
          end
      | Fail => Fail
      | Crash e => Crash e
      | Starved => Starved
      end
  end

with parse_object (fuel depth : nat) (s : pystr)
                  (acc : list (pystr * pyvalue))
  {struct fuel} : scan pyvalue :=
  match fuel with
  | O => Starved
  | S fuel' =>
      match s with
      | q :: r =>
          if (q =? 34)%N then
            match scanstring r [] with
            | Done k r1 =>
                match skip_ws r1 with
                | col :: r2 =>
                    if (col =? 58)%N then
                      match scan_once fuel' depth (skip_ws r2) with
                      | Done v r3 =>
                          match skip_ws r3 with
                          | c :: r4 =>
                              if (c =? 125)%N then Done (PDict (dict_set acc k v)) r4
                              else if (c =? 44)%N
                              then parse_object fuel' depth (skip_ws r4)
                                                (dict_set acc k v)
                              else Fail
                          | [] => Fail
                          end
                      | Fail => Fail
                      | Crash e => Crash e
                      | Starved => Starved
                      end
                    else Fail
                | [] => Fail
                end
            | Fail => Fail
            | Crash e => Crash e
            | Starved => Starved
            end
          else Fail
      | [] => Fail
      end
  end.

(* ------------------------------------------------------------------ *)
(** ** Numbers as text *)

(** Decimal digits of an integer, as [str(int)] gives them below the digit
    limit. *)
Definition str_of_Z (z : Z) : pystr :=
  map N_of_ascii (list_ascii_of_string (NilZero.string_of_int (Z.to_int z))).

(** The number of decimal digits of an integer, its sign apart. *)
Definition decimal_digits (z : Z) : nat := List.length (str_of_Z (Z.abs z)).

(** [str(z)] and [repr(z)] for an [int]. *)
Definition int_repr (z : Z) : res pystr :=
  if (int_max_str_digits <? decimal_digits z)%nat then Raise ValueError
  else Ok (str_of_Z z).

(* ------------------------------------------------------------------ *)
(** ** Binary64 *)

(** Python's [float] is an IEEE 754 binary64.  [SpecFloat] specifies its
    rounding, to nearest with ties to even. *)
Definition binary64 : Type := spec_float.

(** [m * 2^e] rounded to a binary64. *)
Definition b64_round (m e : Z) : binary64 := binary_normalize 53 1024 m e false.

(** The decimal [(-1)^neg * m * 10^e] rounded to a binary64, as [float]
    reads its literal.  A quotient is rounded from its first 66 bits or
    more and a last bit that tells whether anything was left.  The tests on
    [Z.log2 z] spare the power of ten where the result is infinite or zero
    whatever the digits. *)
Definition b64_of_decimal (neg : bool) (m : N) (e : Z) : binary64 :=
  if (m =? 0)%N then S754_zero neg
  else
    let z := Z.of_N m in
    let sign (x : Z) : Z := if neg then (- x)%Z else x in
    if (0 <=? e)%Z then
      if (1100 <? Z.log2 z + 3 * e)%Z then S754_infinity neg
      else b64_round (sign (z * 10 ^ e)%Z) 0
    else
      if (Z.log2 z + 1 + 3 * e <? -1080)%Z then S754_zero neg
      else
        let d := (10 ^ (- e))%Z in
        let s := Z.max 0 (66 + Z.log2 d - Z.log2 z) in
        let q := (z * 2 ^ s / d)%Z in
        let sticky := if (z * 2 ^ s mod d =? 0)%Z then 0%Z else 1%Z in
        b64_round (sign (2 * q + sticky)%Z) (- s - 1).

Definition b64_of_pyfloat (f : pyfloat) : binary64 :=
  match f with
  | FNaN => S754_nan
  | FInf neg => S754_infinity neg
  | FDec neg m e => b64_of_decimal neg m e
  end.

(** A binary64 is the decimal it is equal to. *)
Definition pyfloat_of_b64 (x : binary64) : pyfloat :=
  match x with
  | S754_nan => FNaN
  | S754_infinity neg => FInf neg
  | S754_zero neg => FDec neg 0 0
  | S754_finite neg m e =>
      if (0 <=? e)%Z then FDec neg (Npos m * 2 ^ Z.to_N e) 0
      else FDec neg (Npos m * 5 ^ Z.to_N (- e)) e
  end.

(** [float(z)] for an [int]: [None] stands for [OverflowError]. *)
Definition b64_of_int (z : Z) : option binary64 :=
  match b64_round z 0 with
  | S754_infinity _ => None
  | x => Some x
  end.

Definition b64_eqb (x y : binary64) : bool :=
  match x, y with
  | S754_zero a, S754_zero b => Bool.eqb a b
  | S754_infinity a, S754_infinity b => Bool.eqb a b
  | S754_nan, S754_nan => true
  | S754_finite a m e, S754_finite b n f =>
      Bool.eqb a b && (m =? n)%positive && (e =? f)%Z
  | _, _ => false
  end.

(** The greatest [E] with [10^E <= num / den], sought around the estimate
    that the binary logarithms give. *)
Definition pow10_le (E num den : Z) : bool :=
  if (0 <=? E)%Z then (10 ^ E * den <=? num)%Z
  else (den <=? num * 10 ^ (- E))%Z.

Definition floor_log10 (num den : Z) : Z :=
  let e0 := ((Z.log2 num - Z.log2 den) * 30103 / 100000)%Z in
  match find (fun E => pow10_le E num den)
             [e0 + 3; e0 + 2; e0 + 1; e0; e0 - 1; e0 - 2; e0 - 3]%Z with
  | Some E => E
  | None => e0
  end.

(** The shortest decimal [c * 10^p] that [float] reads back as [x], sought
    with [n], [n + 1], ... significant digits; of the two neighbours of [x]
    with that many digits the nearer one that reads back is taken. *)
Fixpoint shortest_decimal (fuel : nat) (n : Z) (x : binary64) (num den E : Z)
  : Z * Z :=
  let p := (E - n + 1)%Z in
  let scaled := if (0 <=? p)%Z then num else (num * 10 ^ (- p))%Z in
  let unit := if (0 <=? p)%Z then (den * 10 ^ p)%Z else den in
  let lo := (scaled / unit)%Z in
  let rest := (scaled mod unit)%Z in
  let reads (c : Z) : bool := b64_eqb (b64_of_decimal false (Z.to_N c) p) x in
  let ok_lo := reads lo in
  let ok_hi := negb (rest =? 0)%Z && reads (lo + 1)%Z in
  let nearer :=
    if (2 * rest <? unit)%Z then lo
    else if (unit <? 2 * rest)%Z then (lo + 1)%Z
    else if Z.even lo then lo else (lo + 1)%Z in
  if ok_lo && ok_hi then (nearer, p)
  else if ok_lo then (lo, p)
  else if ok_hi then ((lo + 1)%Z, p)
  else
    match fuel with
    | O => (nearer, p)
    | S fuel' => shortest_decimal fuel' (n + 1)%Z x num den E
    end.

Fixpoint drop_zeros (s : pystr) : pystr :=
  match s with
  | c :: r => if (c =? 48)%N then drop_zeros r else s
  | [] => []
  end.

(** The digits of the shortest decimal of a positive binary64, without
    trailing zeros, and the position of the decimal point after the first
    of them: the value is [0.d1 d2 ... * 10^decpt]. *)
Definition float_digits (m : positive) (e : Z) : pystr * Z :=
  let num := if (0 <=? e)%Z then (Zpos m * 2 ^ e)%Z else Zpos m in
  let den := if (0 <=? e)%Z then 1%Z else (2 ^ (- e))%Z in
  let '(c, p) :=
    shortest_decimal 16 1 (S754_finite false m e) num den (floor_log10 num den) in
  let ds := str_of_Z c in
  (rev (drop_zeros (rev ds)), (Z.of_nat (List.length ds) + p)%Z).

(** [repr] of a float ([float_repr_style] is [short]): the shortest digits
    that read back, in positional notation when the decimal point falls
    within them or close to them, with an exponent otherwise. *)
Definition float_repr (f : pyfloat) : pystr :=
  match b64_of_pyfloat f with
  | S754_nan => txt "nan"
  | S754_infinity neg => if neg then txt "-inf" else txt "inf"
  | S754_zero neg => if neg then txt "-0.0" else txt "0.0"
  | S754_finite neg m e =>
      let '(ds, decpt) := float_digits m e in
      let sign := if neg then txt "-" else [] in
      let n := Z.of_nat (List.length ds) in
      if ((decpt <=? -4) || (16 <? decpt))%Z then
        let x := (decpt - 1)%Z in
        let mantissa :=
          match ds with
          | d :: (_ :: _) as r => d :: 46%N :: r
          | _ => ds
          end in
        sign ++ mantissa ++ txt "e" ++ (if (x <? 0)%Z then txt "-" else txt "+")
             ++ (if (Z.abs x <? 10)%Z then txt "0" else [])
             ++ str_of_Z (Z.abs x)
      else if (decpt <=? 0)%Z then
        sign ++ txt "0." ++ repeat 48%N (Z.to_nat (- decpt)) ++ ds
      else if (n <=? decpt)%Z then
        sign ++ ds ++ repeat 48%N (Z.to_nat (decpt - n)) ++ txt ".0"
      else
        sign ++ firstn (Z.to_nat decpt) ds ++ txt "." ++ skipn (Z.to_nat decpt) ds
  end.

(** [x + y] on floats. *)
Definition float_add (x y : pyfloat) : pyfloat :=
  pyfloat_of_b64 (SFadd 53 1024 (b64_of_pyfloat x) (b64_of_pyfloat y)).

(** [float(z)] *)
Definition float_of_int (z : Z) : option pyfloat :=
  match b64_of_int z with
  | Some x => Some (pyfloat_of_b64 x)
  | None => None
  end.

(* ------------------------------------------------------------------ *)
(** ** Python operations on decoded values *)

(** The float denoted by the decimal rounds to zero: it is at most half of
    the least positive binary64, [2^-1075] (ties go to the even neighbour,
    zero). *)
Definition float_is_zero (f : pyfloat) : bool :=
  match f with
  | FNaN => false
  | FInf _ => false
  | FDec _ m e =>
      (m =? 0)%N
      || ((e <? 0)%Z && (Z.of_N m * 2 ^ 1075 <=? 10 ^ (- e))%Z)
  end.

(** [bool(v)] *)
Definition py_truthy (v : pyvalue) : bool :=
  match v with
  | PNone => false
  | PBool b => b
  | PInt z => negb (z =? 0)%Z
  | PFloat f => negb (float_is_zero f)
  | PStr s => match s with [] => false | _ :: _ => true end
  | PList l => match l with [] => false | _ :: _ => true end
  | PDict kv => match kv with [] => false | _ :: _ => true end
  end.

(** [isinstance(v, list)] *)
Definition isinstance_list (v : pyvalue) : bool :=
  match v with PList _ => true | _ => false end.

(** [len(v)] *)
Definition py_len (v : pyvalue) : res nat :=
  match v with
  | PStr s => Ok (List.length s)
  | PList l => Ok (List.length l)
  | PDict kv => Ok (List.length kv)
  | PNone | PBool _ | PInt _ | PFloat _ => Raise TypeError
  end.

(** [v[i]] for a literal index [i >= 0].  The keys of a decoded object are
    strings, so an integer key is never present. *)
Definition py_getitem (v : pyvalue) (i : nat) : res pyvalue :=
  match v with
  | PList l =>
      match nth_error l i with Some x => Ok x | None => Raise IndexError end
  | PStr s =>
      match nth_error s i with Some c => Ok (PStr [c]) | None => Raise IndexError end
  | PDict _ => Raise KeyError
  | PNone | PBool _ | PInt _ | PFloat _ => Raise TypeError
  end.

(** [v == "..."] against a string constant. *)
Definition py_eq_str (v : pyvalue) (s : pystr) : bool :=
  match v with
  | PStr t => pystr_eqb t s
  | _ => false
  end.

(** [x + z] and [z + x] for a float [x] and an [int] [z], which is
    converted first. *)
Definition float_add_int (x : pyfloat) (z : Z) : res pyvalue :=
  match float_of_int z with
  | Some y => Ok (PFloat (float_add x y))
  | None => Raise OverflowError
  end.

Definition int_add_float (z : Z) (y : pyfloat) : res pyvalue :=
  match float_of_int z with
  | Some x => Ok (PFloat (float_add x y))
  | None => Raise OverflowError
  end.

(** [a + b]; a [bool] is an [int]. *)
Definition py_add (a b : pyvalue) : res pyvalue :=
  match a, b with
  | PInt x, PInt y => Ok (PInt (x + y))
  | PInt x, PBool y => Ok (PInt (x + Z.b2z y))
  | PBool x, PInt y => Ok (PInt (Z.b2z x + y))
  | PBool x, PBool y => Ok (PInt (Z.b2z x + Z.b2z y))
  | PFloat x, PFloat y => Ok (PFloat (float_add x y))
  | PFloat x, PInt y => float_add_int x y
  | PFloat x, PBool y => float_add_int x (Z.b2z y)
  | PInt x, PFloat y => int_add_float x y
  | PBool x, PFloat y => int_add_float (Z.b2z x) y
  | PStr x, PStr y => Ok (PStr (x ++ y))
  | PList x, PList y => Ok (PList (x ++ y))
  | _, _ => Raise TypeError
  end.

Definition hex_digit (n : N) : N := (if n <? 10 then 48 + n else 87 + n)%N.

(** The code points from U+0080 on that [str.isprintable] refuses, in
    ranges with both ends included (the Unicode database 14.0 of
    CPython 3.11: the categories Cc, Cf, Cs, Co, Cn, Zl, Zp and Zs). *)
Definition nonprintable_ranges : list (N * N) :=
  [(128, 160); (173, 173); (888, 889); (896, 899); (907, 907); (909, 909);
   (930, 930); (1328, 1328); (1367, 1368); (1419, 1420); (1424, 1424);
   (1480, 1487); (1515, 1518); (1525, 1541); (1564, 1564); (1757, 1757);
   (1806, 1807); (1867, 1868); (1970, 1983); (2043, 2044); (2094, 2095);
   (2111, 2111); (2140, 2141); (2143, 2143); (2155, 2159); (2191, 2199);
   (2274, 2274); (2436, 2436); (2445, 2446); (2449, 2450); (2473, 2473);
   (2481, 2481); (2483, 2485); (2490, 2491); (2501, 2502); (2505, 2506);
   (2511, 2518); (2520, 2523); (2526, 2526); (2532, 2533); (2559, 2560);
   (2564, 2564); (2571, 2574); (2577, 2578); (2601, 2601); (2609, 2609);
   (2612, 2612); (2615, 2615); (2618, 2619); (2621, 2621); (2627, 2630);
   (2633, 2634); (2638, 2640); (2642, 2648); (2653, 2653); (2655, 2661);
   (2679, 2688); (2692, 2692); (2702, 2702); (2706, 2706); (2729, 2729);
   (2737, 2737); (2740, 2740); (2746, 2747); (2758, 2758); (2762, 2762);
   (2766, 2767); (2769, 2783); (2788, 2789); (2802, 2808); (2816, 2816);
   (2820, 2820); (2829, 2830); (2833, 2834); (2857, 2857); (2865, 2865);
   (2868, 2868); (2874, 2875); (2885, 2886); (2889, 2890); (2894, 2900);
   (2904, 2907); (2910, 2910); (2916, 2917); (2936, 2945); (2948, 2948);
   (2955, 2957); (2961, 2961); (2966, 2968); (2971, 2971); (2973, 2973);
   (2976, 2978); (2981, 2983); (2987, 2989); (3002, 3005); (3011, 3013);
   (3017, 3017); (3022, 3023); (3025, 3030); (3032, 3045); (3067, 3071);
   (3085, 3085); (3089, 3089); (3113, 3113); (3130, 3131); (3141, 3141);
   (3145, 3145); (3150, 3156); (3159, 3159); (3163, 3164); (3166, 3167);
   (3172, 3173); (3184, 3190); (3213, 3213); (3217, 3217); (3241, 3241);
   (3252, 3252); (3258, 3259); (3269, 3269); (3273, 3273); (3278, 3284);
   (3287, 3292); (3295, 3295); (3300, 3301); (3312, 3312); (3315, 3327);
   (3341, 3341); (3345, 3345); (3397, 3397); (3401, 3401); (3408, 3411);
   (3428, 3429); (3456, 3456); (3460, 3460); (3479, 3481); (3506, 3506);
   (3516, 3516); (3518, 3519); (3527, 3529); (3531, 3534); (3541, 3541);
   (3543, 3543); (3552, 3557); (3568, 3569); (3573, 3584); (3643, 3646);
   (3676, 3712); (3715, 3715); (3717, 3717); (3723, 3723); (3748, 3748);
   (3750, 3750); (3774, 3775); (3781, 3781); (3783, 3783); (3790, 3791);
   (3802, 3803); (3808, 3839); (3912, 3912); (3949, 3952); (3992, 3992);
   (4029, 4029); (4045, 4045); (4059, 4095); (4294, 4294); (4296, 4300);
   (4302, 4303); (4681, 4681); (4686, 4687); (4695, 4695); (4697, 4697);
   (4702, 4703); (4745, 4745); (4750, 4751); (4785, 4785); (4790, 4791);
   (4799, 4799); (4801, 4801); (4806, 4807); (4823, 4823); (4881, 4881);
   (4886, 4887); (4955, 4956); (4989, 4991); (5018, 5023); (5110, 5111);
   (5118, 5119); (5760, 5760); (5789, 5791); (5881, 5887); (5910, 5918);
   (5943, 5951); (5972, 5983); (5997, 5997); (6001, 6001); (6004, 6015);
   (6110, 6111); (6122, 6127); (6138, 6143); (6158, 6158); (6170, 6175);
   (6265, 6271); (6315, 6319); (6390, 6399); (6431, 6431); (6444, 6447);
   (6460, 6463); (6465, 6467); (6510, 6511); (6517, 6527); (6572, 6575);
   (6602, 6607); (6619, 6621); (6684, 6685); (6751, 6751); (6781, 6782);
   (6794, 6799); (6810, 6815); (6830, 6831); (6863, 6911); (6989, 6991);
   (7039, 7039); (7156, 7163); (7224, 7226); (7242, 7244); (7305, 7311);
   (7355, 7356); (7368, 7375); (7419, 7423); (7958, 7959); (7966, 7967);
   (8006, 8007); (8014, 8015); (8024, 8024); (8026, 8026); (8028, 8028);
   (8030, 8030); (8062, 8063); (8117, 8117); (8133, 8133); (8148, 8149);
   (8156, 8156); (8176, 8177); (8181, 8181); (8191, 8207); (8232, 8239);
   (8287, 8303); (8306, 8307); (8335, 8335); (8349, 8351); (8385, 8399);
   (8433, 8447); (8588, 8591); (9255, 9279); (9291, 9311); (11124, 11125);
   (11158, 11158); (11508, 11512); (11558, 11558); (11560, 11564);
   (11566, 11567); (11624, 11630); (11633, 11646); (11671, 11679);
   (11687, 11687); (11695, 11695); (11703, 11703); (11711, 11711);
   (11719, 11719); (11727, 11727); (11735, 11735); (11743, 11743);
   (11870, 11903); (11930, 11930); (12020, 12031); (12246, 12271);
   (12284, 12288); (12352, 12352); (12439, 12440); (12544, 12548);
   (12592, 12592); (12687, 12687); (12772, 12783); (12831, 12831);
   (42125, 42127); (42183, 42191); (42540, 42559); (42744, 42751);
   (42955, 42959); (42962, 42962); (42964, 42964); (42970, 42993);
   (43053, 43055); (43066, 43071); (43128, 43135); (43206, 43213);
   (43226, 43231); (43348, 43358); (43389, 43391); (43470, 43470);
   (43482, 43485); (43519, 43519); (43575, 43583); (43598, 43599);
   (43610, 43611); (43715, 43738); (43767, 43776); (43783, 43784);
   (43791, 43792); (43799, 43807); (43815, 43815); (43823, 43823);
   (43884, 43887); (44014, 44015); (44026, 44031); (55204, 55215);
   (55239, 55242); (55292, 63743); (64110, 64111); (64218, 64255);
   (64263, 64274); (64280, 64284); (64311, 64311); (64317, 64317);
   (64319, 64319); (64322, 64322); (64325, 64325); (64451, 64466);
   (64912, 64913); (64968, 64974); (64976, 65007); (65050, 65055);
   (65107, 65107); (65127, 65127); (65132, 65135); (65141, 65141);
   (65277, 65280); (65471, 65473); (65480, 65481); (65488, 65489);
   (65496, 65497); (65501, 65503); (65511, 65511); (65519, 65531);
   (65534, 65535); (65548, 65548); (65575, 65575); (65595, 65595);
   (65598, 65598); (65614, 65615); (65630, 65663); (65787, 65791);
   (65795, 65798); (65844, 65846); (65935, 65935); (65949, 65951);
   (65953, 65999); (66046, 66175); (66205, 66207); (66257, 66271);
   (66300, 66303); (66340, 66348); (66379, 66383); (66427, 66431);
   (66462, 66462); (66500, 66503); (66518, 66559); (66718, 66719);
   (66730, 66735); (66772, 66775); (66812, 66815); (66856, 66863);
   (66916, 66926); (66939, 66939); (66955, 66955); (66963, 66963);
   (66966, 66966); (66978, 66978); (66994, 66994); (67002, 67002);
   (67005, 67071); (67383, 67391); (67414, 67423); (67432, 67455);
   (67462, 67462); (67505, 67505); (67515, 67583); (67590, 67591);
   (67593, 67593); (67638, 67638); (67641, 67643); (67645, 67646);
   (67670, 67670); (67743, 67750); (67760, 67807); (67827, 67827);
   (67830, 67834); (67868, 67870); (67898, 67902); (67904, 67967);
   (68024, 68027); (68048, 68049); (68100, 68100); (68103, 68107);
   (68116, 68116); (68120, 68120); (68150, 68151); (68155, 68158);
   (68169, 68175); (68185, 68191); (68256, 68287); (68327, 68330);
   (68343, 68351); (68406, 68408); (68438, 68439); (68467, 68471);
   (68498, 68504); (68509, 68520); (68528, 68607); (68681, 68735);
   (68787, 68799); (68851, 68857); (68904, 68911); (68922, 69215);
   (69247, 69247); (69290, 69290); (69294, 69295); (69298, 69375);
   (69416, 69423); (69466, 69487); (69514, 69551); (69580, 69599);
   (69623, 69631); (69710, 69713); (69750, 69758); (69821, 69821);
   (69827, 69839); (69865, 69871); (69882, 69887); (69941, 69941);
   (69960, 69967); (70007, 70015); (70112, 70112); (70133, 70143);
   (70162, 70162); (70207, 70271); (70279, 70279); (70281, 70281);
   (70286, 70286); (70302, 70302); (70314, 70319); (70379, 70383);
   (70394, 70399); (70404, 70404); (70413, 70414); (70417, 70418);
   (70441, 70441); (70449, 70449); (70452, 70452); (70458, 70458);
   (70469, 70470); (70473, 70474); (70478, 70479); (70481, 70486);
   (70488, 70492); (70500, 70501); (70509, 70511); (70517, 70655);
   (70748, 70748); (70754, 70783); (70856, 70863); (70874, 71039);
   (71094, 71095); (71134, 71167); (71237, 71247); (71258, 71263);
   (71277, 71295); (71354, 71359); (71370, 71423); (71451, 71452);
   (71468, 71471); (71495, 71679); (71740, 71839); (71923, 71934);
   (71943, 71944); (71946, 71947); (71956, 71956); (71959, 71959);
   (71990, 71990); (71993, 71994); (72007, 72015); (72026, 72095);
   (72104, 72105); (72152, 72153); (72165, 72191); (72264, 72271);
   (72355, 72367); (72441, 72703); (72713, 72713); (72759, 72759);
   (72774, 72783); (72813, 72815); (72848, 72849); (72872, 72872);
   (72887, 72959); (72967, 72967); (72970, 72970); (73015, 73017);
   (73019, 73019); (73022, 73022); (73032, 73039); (73050, 73055);
   (73062, 73062); (73065, 73065); (73103, 73103); (73106, 73106);
   (73113, 73119); (73130, 73439); (73465, 73647); (73649, 73663);
   (73714, 73726); (74650, 74751); (74863, 74863); (74869, 74879);
   (75076, 77711); (77811, 77823); (78895, 82943); (83527, 92159);
   (92729, 92735); (92767, 92767); (92778, 92781); (92863, 92863);
   (92874, 92879); (92910, 92911); (92918, 92927); (92998, 93007);
   (93018, 93018); (93026, 93026); (93048, 93052); (93072, 93759);
   (93851, 93951); (94027, 94030); (94088, 94094); (94112, 94175);
   (94181, 94191); (94194, 94207); (100344, 100351); (101590, 101631);
   (101641, 110575); (110580, 110580); (110588, 110588); (110591, 110591);
   (110883, 110927); (110931, 110947); (110952, 110959); (111356, 113663);
   (113771, 113775); (113789, 113791); (113801, 113807); (113818, 113819);
   (113824, 118527); (118574, 118575); (118599, 118607); (118724, 118783);
   (119030, 119039); (119079, 119080); (119155, 119162); (119275, 119295);
   (119366, 119519); (119540, 119551); (119639, 119647); (119673, 119807);
   (119893, 119893); (119965, 119965); (119968, 119969); (119971, 119972);
   (119975, 119976); (119981, 119981); (119994, 119994); (119996, 119996);
   (120004, 120004); (120070, 120070); (120075, 120076); (120085, 120085);
   (120093, 120093); (120122, 120122); (120127, 120127); (120133, 120133);
   (120135, 120137); (120145, 120145); (120486, 120487); (120780, 120781);
   (121484, 121498); (121504, 121504); (121520, 122623); (122655, 122879);
   (122887, 122887); (122905, 122906); (122914, 122914); (122917, 122917);
   (122923, 123135); (123181, 123183); (123198, 123199); (123210, 123213);
   (123216, 123535); (123567, 123583); (123642, 123646); (123648, 124895);
   (124903, 124903); (124908, 124908); (124911, 124911); (124927, 124927);
   (125125, 125126); (125143, 125183); (125260, 125263); (125274, 125277);
   (125280, 126064); (126133, 126208); (126270, 126463); (126468, 126468);
   (126496, 126496); (126499, 126499); (126501, 126502); (126504, 126504);
   (126515, 126515); (126520, 126520); (126522, 126522); (126524, 126529);
   (126531, 126534); (126536, 126536); (126538, 126538); (126540, 126540);
   (126544, 126544); (126547, 126547); (126549, 126550); (126552, 126552);
   (126554, 126554); (126556, 126556); (126558, 126558); (126560, 126560);
   (126563, 126563); (126565, 126566); (126571, 126571); (126579, 126579);
   (126584, 126584); (126589, 126589); (126591, 126591); (126602, 126602);
   (126620, 126624); (126628, 126628); (126634, 126634); (126652, 126703);
   (126706, 126975); (127020, 127023); (127124, 127135); (127151, 127152);
   (127168, 127168); (127184, 127184); (127222, 127231); (127406, 127461);
   (127491, 127503); (127548, 127551); (127561, 127567); (127570, 127583);
   (127590, 127743); (128728, 128732); (128749, 128751); (128765, 128767);
   (128884, 128895); (128985, 128991); (129004, 129007); (129009, 129023);
   (129036, 129039); (129096, 129103); (129114, 129119); (129160, 129167);
   (129198, 129199); (129202, 129279); (129620, 129631); (129646, 129647);
   (129653, 129655); (129661, 129663); (129671, 129679); (129709, 129711);
   (129723, 129727); (129734, 129743); (129754, 129759); (129768, 129775);
   (129783, 129791); (129939, 129939); (129995, 130031); (130042, 131071);
   (173792, 173823); (177977, 177983); (178206, 178207); (183970, 183983);
   (191457, 194559); (195102, 196607); (201547, 917759); (918000, 1114111)]%N.

(** [str.isprintable] on one character. *)
Definition isprintable (c : N) : bool :=
  if (c <? 128)%N then ((32 <=? c) && (c <? 127))%N
  else negb (existsb (fun r => (fst r <=? c) && (c <=? snd r))%N
                     nonprintable_ranges).

(** [repr] of a string: the quote is an apostrophe unless the string holds
    one and no quotation mark; what is not printable is escaped. *)
Definition repr_char (quote c : N) : pystr :=
  if ((c =? quote) || (c =? 92))%N then [92; c]%N
  else if (c =? 9)%N then [92; 116]%N
  else if (c =? 10)%N then [92; 110]%N
  else if (c =? 13)%N then [92; 114]%N
  else if isprintable c then [c]
  else if (c <? 256)%N
       then [92; 120; hex_digit (c / 16); hex_digit (c mod 16)]%N
  else if (c <? 65536)%N
       then [92; 117; hex_digit (c / 4096); hex_digit ((c / 256) mod 16);
             hex_digit ((c / 16) mod 16); hex_digit (c mod 16)]%N
  else [92; 85; 48; 48; hex_digit (c / 1048576);
        hex_digit ((c / 65536) mod 16); hex_digit ((c / 4096) mod 16);
        hex_digit ((c / 256) mod 16); hex_digit ((c / 16) mod 16);
        hex_digit (c mod 16)]%N.

Definition repr_str (s : pystr) : pystr :=
  let quote := if contains 39 s && negb (contains 34 s) then 34%N else 39%N in
  quote :: flat_map (repr_char quote) s ++ [quote].

(** [repr(v)] *)
Fixpoint py_repr (v : pyvalue) : res pystr :=
  match v with
  | PNone => Ok (txt "None")
  | PBool true => Ok (txt "True")
  | PBool false => Ok (txt "False")
  | PInt z => int_repr z
  | PFloat f => Ok (float_repr f)
  | PStr s => Ok (repr_str s)
  | PList l =>
      let fix items (l : list pyvalue) : res pystr :=
        match l with
        | [] => Ok []
        | x :: r =>
            res_bind (py_repr x) (fun a =>
            match r with
            | [] => Ok a
            | _ :: _ => res_bind (items r) (fun b => Ok (a ++ txt ", " ++ b))
            end)
        end in
      res_bind (items l) (fun b => Ok (txt "[" ++ b ++ txt "]"))
  | PDict kv =>
      let fix items (kv : list (pystr * pyvalue)) : res pystr :=
        match kv with
        | [] => Ok []
        | (k, x) :: r =>
            res_bind (py_repr x) (fun a =>
            match r with
            | [] => Ok (repr_str k ++ txt ": " ++ a)
            | _ :: _ =>
                res_bind (items r)
                  (fun b => Ok (repr_str k ++ txt ": " ++ a ++ txt ", " ++ b))
            end)
        end in
      res_bind (items kv) (fun b => Ok (txt "{" ++ b ++ txt "}"))
  end.

(** [str(v)], which an f-string applies to its field. *)
Definition py_str (v : pyvalue) : res pystr :=
  match v with
  | PStr s => Ok s
  | _ => py_repr v
  end.

(** [s.encode()]: UTF-8 has no encoding for a surrogate code point.  The
    bytes written are identified by the text they encode. *)
Definition is_surrogate (c : N) : bool := ((55296 <=? c) && (c <=? 57343))%N.

Definition encode (s : pystr) : res pystr :=
  if existsb is_surrogate s then Raise UnicodeEncodeError else Ok s.

(** [json.dumps] with its defaults ([ensure_ascii=True], [allow_nan=True],
    separators [", "] and [": "]). *)
Definition dumps_char (c : N) : pystr :=
  let u4 (x : N) : pystr :=
    [92; 117; hex_digit (x / 4096); hex_digit ((x / 256) mod 16);
     hex_digit ((x / 16) mod 16); hex_digit (x mod 16)]%N in
  if (c =? 34)%N then [92; 34]%N
  else if (c =? 92)%N then [92; 92]%N
  else if (c =? 10)%N then [92; 110]%N
  else if (c =? 13)%N then [92; 114]%N
  else if (c =? 9)%N then [92; 116]%N
  else if (c =? 12)%N then [92; 102]%N
  else if (c =? 8)%N then [92; 98]%N
  else if ((32 <=? c) && (c <=? 126))%N then [c]
  else if (c <? 65536)%N then u4 c
  else u4 (55296 + (c - 65536) / 1024)%N ++ u4 (56320 + (c - 65536) mod 1024)%N.

Definition dumps_str (s : pystr) : pystr :=
  34%N :: flat_map dumps_char s ++ [34%N].

Definition dumps_float (f : pyfloat) : pystr :=
  match b64_of_pyfloat f with
  | S754_nan => txt "NaN"
  | S754_infinity neg => if neg then txt "-Infinity" else txt "Infinity"
  | _ => float_repr f
  end.

Fixpoint json_dumps (v : pyvalue) : res pystr :=
  match v with
  | PNone => Ok (txt "null")
  | PBool true => Ok (txt "true")
  | PBool false => Ok (txt "false")
  | PInt z => int_repr z
  | PFloat f => Ok (dumps_float f)
  | PStr s => Ok (dumps_str s)
  | PList l =>
      let fix items (l : list pyvalue) : res pystr :=
        match l with
        | [] => Ok []
        | x :: r =>
            res_bind (json_dumps x) (fun a =>
            match r with
            | [] => Ok a
            | _ :: _ => res_bind (items r) (fun b => Ok (a ++ txt ", " ++ b))
            end)
        end in
      res_bind (items l) (fun b => Ok (txt "[" ++ b ++ txt "]"))
  | PDict kv =>
      let fix items (kv : list (pystr * pyvalue)) : res pystr :=
        match kv with
        | [] => Ok []
        | (k, x) :: r =>
            res_bind (json_dumps x) (fun a =>
            match r with
            | [] => Ok (dumps_str k ++ txt ": " ++ a)
            | _ :: _ =>
                res_bind (items r)
                  (fun b => Ok (dumps_str k ++ txt ": " ++ a ++ txt ", " ++ b))
            end)
        end in
      res_bind (items kv) (fun b => Ok (txt "{" ++ b ++ txt "}"))
  end.

(* ------------------------------------------------------------------ *)
(** ** The handler's effects *)

(** What the handler puts on the connection, in order. *)
Inductive chunk : Type :=
| StatusLine (code : Z)
| HeaderLine (name value : string)
| EndHeaders
| Payload (data : pystr).

(** A handler step runs on what has been written so far; it yields a value
    or an uncaught exception, together with what is written by then. *)
Definition M (A : Type) : Type := list chunk -> res A * list chunk.

Definition ret {A : Type} (a : A) : M A := fun w => (Ok a, w).

Definition bind {A B : Type} (c : M A) (k : A -> M B) : M B :=
  fun w =>
    match c w with
    | (Ok a, w') => k a w'
    | (Raise e, w') => (Raise e, w')
    end.

Definition lift {A : Type} (r : res A) : M A := fun w => (r, w).

Definition emit (c : chunk) : M unit := fun w => (Ok tt, w ++ [c]).

Declare Scope handler_scope.
Delimit Scope handler_scope with handler.
Notation "x <- c1 ;; c2" := (bind c1 (fun x => c2))
  (at level 61, c1 at next level, right associativity) : handler_scope.
Notation "c1 ;; c2" := (bind c1 (fun _ => c2))
  (at level 61, right associativity) : handler_scope.
Local Open Scope handler_scope.

Definition send_response (code : Z) : M unit := emit (StatusLine code).
Definition send_header (name value : string) : M unit := emit (HeaderLine name value).
Definition end_headers : M unit := emit EndHeaders.
Definition wfile_write (data : pystr) : M unit := emit (Payload data).

(* ------------------------------------------------------------------ *)
(** ** handle_batch_request *)

Section Interpreter.

Context {py : interpreter}.

(** [json.loads(s)]: leading whitespace, one value, trailing whitespace,
    nothing else; what it raises when it returns no value.  The scanner is
    never short of fuel ([decode_fed]). *)
Definition decode (s : pystr) : res pyvalue :=
  match scan_once (2 * List.length s + 2) (recursion_headroom (py := py))
                  (skip_ws s) with
  | Done v r =>
      match skip_ws r with
      | [] => Ok v
      | _ :: _ => Raise JSONDecodeError
      end
  | Fail => Raise JSONDecodeError
  | Crash e => Raise e
  | Starved => Raise JSONDecodeError
  end.

(** The value [json.loads(s)] returns, when it returns one. *)
Definition json_loads (s : pystr) : option pyvalue :=
  match decode s with
  | Ok v => Some v
  | Raise _ => None
  end.

(** [f'["resolve",-1,{result}]\n'], given [str(result)]. *)
Definition resolve_line (result : pystr) : pystr :=
  txt "['resolve',-1," ++ result ++ txt "]" ++ [nl].

(** ['["resolve",-1,"ok"]\n'] *)
Definition default_line : pystr := txt "['resolve',-1,'ok']" ++ [nl].

(** ['["reject",-1,["error","bad_request","Invalid JSON"]]\n'] *)
Definition reject_line : pystr :=
  txt "['reject',-1,['error','bad_request','Invalid JSON']]" ++ [nl].

(** [[{"result": "test"}]] *)
Definition legacy_value : pyvalue :=
  PList [PDict [(txt "result", PStr (txt "test"))]].

(** How an iteration of the loop over the lines ends: it falls through to
    the next line, or the handler has returned. *)
Inductive flow : Type :=
| Next
| Return.

(** The block under [if method == "add" and len(args) == 2]: the sum is
    computed, formatted and sent, and the handler returns. *)
Definition invoke_add (args : pyvalue) : M flow :=
  a0 <- lift (py_getitem args 0) ;;
  a1 <- lift (py_getitem args 1) ;;
  result <- lift (py_add a0 a1) ;;
  shown <- lift (py_str result) ;;
  let response := resolve_line shown in
  send_response 200 ;;
  send_header "Content-Type" "text/plain" ;;
  end_headers ;;
  data <- lift (encode response) ;;
  wfile_write data ;;
  ret Return.

(** The simulated method call of a pipeline expression [expr], a list whose
    first element is ["pipeline"]. *)
Definition simulate_call (expr : list pyvalue) : M flow :=
  let import_id := nth 1 expr PNone in
  let method_path := nth 2 expr (PList []) in
  let args := nth 3 expr (PList []) in
  has_method <-
    (if py_truthy method_path
     then n <- lift (py_len method_path) ;; ret (0 <? n)%nat
     else ret false) ;;
  if has_method : bool then
    method <- lift (py_getitem method_path 0) ;;
    is_add <-
      (if py_eq_str method (txt "add")
       then n <- lift (py_len args) ;; ret (n =? 2)%nat
       else ret false) ;;
    if is_add : bool then invoke_add args else ret Next
  else ret Next.

(** The body of [for i, line in enumerate(lines)]: the [try] block, and
    the [except] clause that passes over a [JSONDecodeError] and lets any
    other exception through. *)
Definition loop_body (line : pystr) : M flow :=
  match decode line with
  | Raise JSONDecodeError => ret Next
  | Raise e => lift (Raise e)
  | Ok parsed =>
      match parsed with
      | PList (msg_type :: rest) =>
          if py_eq_str msg_type (txt "push") then
            match rest with
            | expr :: _ =>
                match expr with
                | PList (tag :: more) =>
                    if py_eq_str tag (txt "pipeline")
                    then simulate_call (tag :: more)
                    else ret Next
                | _ => ret Next
                end
            | [] => ret Next
            end
          else ret Next
      | _ => ret Next
      end
  end.

Fixpoint for_lines (lines : list pystr) : M flow :=
  match lines with
  | [] => ret Next
  | line :: rest =>
      f <- loop_body line ;;
      match f with
      | Return => ret Return
      | Next => for_lines rest
      end
  end.

(** [[line.strip() for line in body.split('\n') if line.strip()]] *)
Definition body_lines (body : pystr) : list pystr :=
  map strip
    (filter (fun line => match strip line with [] => false | _ :: _ => true end)
       (str_split nl body)).

(** The block under [# Send response]. *)
Definition send_final (response : pystr) : M unit :=
  send_response 200 ;;
  send_header "Content-Type" "text/plain" ;;
  send_header "Access-Control-Allow-Origin" "*" ;;
  send_header "Access-Control-Allow-Methods" "POST, GET, OPTIONS" ;;
  send_header "Access-Control-Allow-Headers" "Content-Type" ;;
  end_headers ;;
  data <- lift (encode response) ;;
  wfile_write data.

(** [handle_batch_request], from the decoded request body on. *)
Definition handle_batch_request (body : pystr) : M unit :=
  response <-
    (if contains nl body then
       f <- for_lines (body_lines body) ;;
       match f with
       | Return => ret None
       | Next => ret (Some default_line)
       end
     else
       match decode body with
       | Ok parsed => r <- lift (json_dumps legacy_value) ;; ret (Some r)
       | Raise JSONDecodeError => ret (Some reject_line)
       | Raise e => lift (Raise e)
       end) ;;
  match response with
  | None => ret tt
  | Some response => send_final response
  end.

(* ------------------------------------------------------------------ *)
(** ** Vocabulary of the properties *)

(** A request body made of the given lines, each ended by a newline. *)
Definition batch (lines : list pystr) : pystr :=
  flat_map (fun line => line ++ [nl]) lines.

(** What the early [return] inside the loop has written. *)
Definition early_reply (data : pystr) : list chunk :=
  [StatusLine 200; HeaderLine "Content-Type" "text/plain"; EndHeaders;
   Payload data].

(** What the block under [# Send response] has written. *)
Definition final_reply (data : pystr) : list chunk :=
  [StatusLine 200; HeaderLine "Content-Type" "text/plain";
   HeaderLine "Access-Control-Allow-Origin" "*";
   HeaderLine "Access-Control-Allow-Methods" "POST, GET, OPTIONS";
   HeaderLine "Access-Control-Allow-Headers" "Content-Type";
   EndHeaders; Payload data].

(** The response body on the connection. *)
Definition response_text (w : list chunk) : pystr :=
  flat_map (fun c => match c with Payload d => d | _ => [] end) w.

(** The response body read the way a client of the line-delimited form
    reads it: one decoded message per non-empty line. *)
Definition response_messages (w : list chunk) : list (option pyvalue) :=
  map json_loads (body_lines (response_text w)).

Definition is_reject (m : option pyvalue) : bool :=
  match m with
  | Some (PList (tag :: _)) => py_eq_str tag (txt "reject")
  | _ => false
  end.



(** The line decodes to a push of a pipeline expression whose method path is
    a list led by ["add"], with [args] in the place of the arguments. *)
Inductive add_push (line : pystr) (args : pyvalue) : Prop :=
| add_push_intro (id : pyvalue) (path more rest : list pyvalue) :
    json_loads line =
      Some (PList (PStr (txt "push")
                   :: PList (PStr (txt "pipeline") :: id
                             :: PList (PStr (txt "add") :: path)
                             :: args :: more)
                   :: rest)) ->
    add_push line args.

(** The line is a call of [add] with exactly two arguments. *)
Definition matches (line : pystr) : Prop :=
  exists args, add_push line args /\ py_len args = Ok 2%nat.




(** A handler step only appends to the connection, and what it yields and
    appends does not depend on what was written before. *)
Definition framed {A : Type} (c : M A) : Prop :=
  exists r out, forall w, c w = (r, w ++ out).

(** The shape of a pipeline expression that reaches [invoke_add]. *)
Definition add_expr (expr : list pyvalue) (args : pyvalue) : Prop :=
  exists tag id path more,
    expr = tag :: id :: PList (PStr (txt "add") :: path) :: args :: more.

(** What a completed run on a line-delimited batch has written after [w]:
    the fixed line when no line matches, and otherwise the sum of the first
    matching line, whatever follows that line in the batch. *)
Definition first_match_outcome (body : pystr) (w w' : list chunk) : Prop :=
  (Forall (fun l => ~ matches l) (body_lines body)
   /\ w' = w ++ final_reply default_line)
  \/ exists pre x post args a b v t,
       body_lines body = pre ++ x :: post
       /\ Forall (fun l => ~ matches l) pre
       /\ add_push x args /\ py_len args = Ok 2%nat
       /\ py_getitem args 0 = Ok a /\ py_getitem args 1 = Ok b
       /\ py_add a b = Ok v /\ py_str v = Ok t
       /\ w' = w ++ early_reply (resolve_line t)
       /\ forall body2 post2,
            contains nl body2 = true ->
            body_lines body2 = pre ++ x :: post2 ->
            handle_batch_request body2 w = (Ok tt, w').


(** The batches of the scenarios. *)
Definition push_five : pystr := txt "['push', 5]".
Definition pull_second : pystr := txt "['pull', -2]".
Definition push_add_3_4 : pystr :=
  txt "['push', ['pipeline', -1, ['add'], [3, 4]]]".
Definition push_add_unallocated : pystr :=
  txt "['push', ['pipeline', -99, ['add'], [1, 2]]]".
Definition push_add_one_argument : pystr :=
  txt "['push', ['pipeline', -1, ['add'], [1]]]".
Definition push_add_unsized : pystr :=
  txt "['push', ['pipeline', -1, ['add'], 5]]".
Definition push_add_number_string : pystr :=
  txt "['push', ['pipeline', -1, ['add'], [1, 'a']]]".

Definition scenario_batch : pystr :=
  batch [push_five; push_add_3_4; pull_second].
Definition unallocated_batch : pystr := batch [push_add_unallocated].
Definition arity_batch : pystr := batch [push_add_one_argument].
Definition unsized_batch : pystr := batch [push_add_unsized].
Definition number_string_batch : pystr := batch [push_add_number_string].


(** ['[{"result": "test"}]'], what [json.dumps] gives for [legacy_value]. *)
Definition legacy_text : pystr := txt "[{'result': 'test'}]".

(* ------------------------------------------------------------------ *)
(** ** The other request handlers *)





(** The number of bytes of [s.encode('UTF-8', 'replace')]: a surrogate is
    replaced by a question mark. *)
Definition utf8_length (s : pystr) : nat :=
  fold_right
    (fun c n =>
       ((if (c <? 128)%N then 1
         else if (c <? 2048)%N then 2
         else if is_surrogate c then 1
         else if (c <? 65536)%N then 3
         else 4) + n)%nat)
    0%nat s.

Section Routing.

(** The document [http.server] formats for the error 404 "Not Found"; its
    text belongs to the library. *)
Variable error_page : pystr.

(** [self.send_error(404, "Not Found")], for a command other than HEAD. *)
Definition send_error_404 : M unit :=
  send_response 404 ;;
  send_header "Connection" "close" ;;
  send_header "Content-Type" "text/html;charset=utf-8" ;;
  send_header "Content-Length"
    (NilZero.string_of_uint (Nat.to_uint (utf8_length error_page))) ;;
  end_headers ;;
  match error_page with
  | [] => ret tt
  | _ :: _ => wfile_write error_page
  end.

(** [do_POST], for the request path and the decoded body. *)
Definition do_POST (path : string) (body : pystr) : M unit :=
  if String.eqb path "/rpc/batch"
  then handle_batch_request body
  else send_error_404.


End Routing.

(* ------------------------------------------------------------------ *)
(** ** Vocabulary of the further properties *)

(** [sep.join(segments)] *)
Fixpoint join (sep : pystr) (segments : list pystr) : pystr :=
  match segments with
  | [] => []
  | [s] => s
  | s :: rest => s ++ sep ++ join sep rest
  end.

(** Everything a handler step writes satisfies [P]. *)
Definition writes {A : Type} (P : chunk -> Prop) (c : M A) : Prop :=
  forall w, exists r out, c w = (r, w ++ out) /\ Forall P out.

(** The exceptions raised before anything is sent: [TypeError] and
    [KeyError] for a call that is ill-typed, [OverflowError] and
    [ValueError] for a sum that has no float or no decimal text, [ValueError]
    and [RecursionError] out of [json.loads]. *)
Definition unanswered (e : pyexn) : Prop :=
  e = TypeError \/ e = KeyError \/ e = OverflowError \/ e = ValueError
  \/ e = RecursionError.

(** What the early return has written when [encode] raises. *)
Definition early_headers : list chunk :=
  [StatusLine 200; HeaderLine "Content-Type" "text/plain"; EndHeaders].

(** The chunk is no status line other than 200. *)
Definition status_200 (c : chunk) : Prop :=
  match c with
  | StatusLine code => code = 200%Z
  | _ => True
  end.

(** The chunk is no part of a response body. *)
Definition no_payload (c : chunk) : Prop :=
  match c with
  | Payload _ => False
  | _ => True
  end.

(** The digits of a decimal number, most significant first. *)
Fixpoint uint_digits (d : Decimal.uint) : pystr :=
  match d with
  | Decimal.Nil => []
  | Decimal.D0 d => 48%N :: uint_digits d
  | Decimal.D1 d => 49%N :: uint_digits d
  | Decimal.D2 d => 50%N :: uint_digits d
  | Decimal.D3 d => 51%N :: uint_digits d
  | Decimal.D4 d => 52%N :: uint_digits d
  | Decimal.D5 d => 53%N :: uint_digits d
  | Decimal.D6 d => 54%N :: uint_digits d
  | Decimal.D7 d => 55%N :: uint_digits d
  | Decimal.D8 d => 56%N :: uint_digits d
  | Decimal.D9 d => 57%N :: uint_digits d
  end.

(** The decoded line is a push of a pipeline expression. *)
Definition pipeline_push (v : pyvalue) : Prop :=
  exists more rest,
    v = PList (PStr (txt "push") :: PList (PStr (txt "pipeline") :: more) :: rest).

(* ------------------------------------------------------------------ *)
(** ** The handler only appends to the connection *)

Unset Implicit Arguments.

Section Frame.

Context {A B : Type}.

Lemma framed_ret (a : A) : framed (ret a).
Proof. exists (Ok a), []. intro w. unfold ret. now rewrite app_nil_r. Qed.

Lemma framed_lift (r : res A) : framed (lift r).
Proof. exists r, []. intro w. unfold lift. now rewrite app_nil_r. Qed.

Lemma framed_bind (c : M A) (k : A -> M B) :
  framed c -> (forall a, framed (k a)) -> framed (bind c k).
Proof.
  intros (r & out & Hc) Hk.
  destruct r as [a | e].
  - destruct (Hk a) as (r' & out' & Hka).
    exists r', (out ++ out'). intro w.
    unfold bind. rewrite Hc, Hka. now rewrite app_assoc.
  - exists (Raise e), out. intro w. unfold bind. now rewrite Hc.
Qed.

End Frame.

Lemma framed_emit (c : chunk) : framed (emit c).
Proof. exists (Ok tt), [c]. reflexivity. Qed.

Ltac frame :=
  repeat first
    [ apply framed_ret | apply framed_lift | apply framed_emit
    | apply framed_bind | intro
    | match goal with
      | |- framed (if ?b then _ else _) => destruct b
      | |- framed (match ?x with _ => _ end) => destruct x
      end ].

Lemma framed_simulate_call (expr : list pyvalue) : framed (simulate_call expr).
Proof.
  unfold simulate_call, invoke_add.
  unfold send_response, send_header, end_headers, wfile_write.
  frame.
Qed.

Lemma framed_loop_body (line : pystr) : framed (loop_body line).
Proof.
  unfold loop_body.
  repeat first
    [ apply framed_ret | apply framed_lift | apply framed_simulate_call
    | match goal with
      | |- framed (if ?b then _ else _) => destruct b
      | |- framed (match ?x with _ => _ end) => destruct x
      end ].
Qed.

Lemma framed_for_lines (lines : list pystr) : framed (for_lines lines).
Proof.
  induction lines as [| line rest IH]; simpl.
  - apply framed_ret.
  - apply framed_bind; [apply framed_loop_body |].
    intros [|]; [exact IH | apply framed_ret].
Qed.

Lemma framed_send_final (response : pystr) : framed (send_final response).
Proof.
  unfold send_final, send_response, send_header, end_headers, wfile_write.
  frame.
Qed.

Lemma framed_handle_batch_request (body : pystr) :
  framed (handle_batch_request body).
Proof.
  unfold handle_batch_request.
  apply framed_bind.
  - destruct (contains nl body).
    + apply framed_bind; [apply framed_for_lines |].
      intros [|]; apply framed_ret.
    + destruct (decode body) as [parsed | []]; frame.
  - intros [response |]; [apply framed_send_final | apply framed_ret].
Qed.

(* ------------------------------------------------------------------ *)
(** ** json.loads has fuel enough *)

Ltac break_match :=
  match goal with
  | |- context [match ?x with _ => _ end] => destruct x eqn:?
  | H : context [match ?x with _ => _ end] |- _ => destruct x eqn:?
  end.

Lemma skip_ws_length (s : pystr) : (List.length (skip_ws s) <= List.length s)%nat.
Proof.
  induction s as [| c r IH]; simpl; [lia |].
  destruct (is_ws c); simpl; lia.
Qed.

Lemma skip_ws_cons (s r : pystr) (c : N) :
  skip_ws s = c :: r -> (List.length r < List.length s)%nat.
Proof.
  intro H. pose proof (skip_ws_length s) as L. rewrite H in L. simpl in L. lia.
Qed.

Lemma scanstring_consumes (n : nat) :
  forall s acc k r,
    (List.length s <= n)%nat ->
    scanstring s acc = Done k r -> (List.length r < List.length s)%nat.
Proof.
  induction n as [| n IH]; intros s acc k r Hn H.
  - destruct s; [discriminate | simpl in Hn; lia].
  - destruct s as [| c s]; [discriminate |].
    simpl in Hn. cbn [scanstring] in H.
    repeat (break_match; try discriminate);
      try (injection H as <- <-; simpl; lia);
      subst;
      match goal with
      | H : scanstring ?t _ = Done _ _ |- _ =>
          apply IH in H; [simpl in *; lia | simpl in *; lia]
      end.
Qed.

Lemma scanstring_fed (n : nat) :
  forall s acc, (List.length s <= n)%nat -> scanstring s acc <> Starved.
Proof.
  induction n as [| n IH]; intros s acc Hn.
  - destruct s; [discriminate | simpl in Hn; lia].
  - destruct s as [| c s]; [discriminate |].
    simpl in Hn. cbn [scanstring].
    repeat (break_match; try discriminate);
      subst; apply IH; simpl in *; lia.
Qed.

Lemma span_digits_length (s : pystr) :
  (List.length (snd (span_digits s)) <= List.length s)%nat.
Proof.
  induction s as [| c r IH]; simpl; [lia |].
  destruct (is_digit c); [| simpl; lia].
  destruct (span_digits r); simpl in *; lia.
Qed.

Lemma int_part_consumes (s ds r : pystr) :
  int_part s = Some (ds, r) -> (List.length r < List.length s)%nat.
Proof.
  unfold int_part. destruct s as [| c s]; [discriminate |].
  destruct (c =? 48)%N.
  - intro H. injection H as <- <-. simpl. lia.
  - destruct (is_digit c); [| discriminate].
    pose proof (span_digits_length s) as L.
    destruct (span_digits s). intro H. injection H as <- <-. simpl in *. lia.
Qed.

Lemma frac_part_consumes (s ds r : pystr) :
  frac_part s = Some (ds, r) -> (List.length r <= List.length s)%nat.
Proof.
  unfold frac_part. destruct s as [| p [| d s]]; try discriminate.
  destruct ((p =? 46)%N && is_digit d); [| discriminate].
  pose proof (span_digits_length s) as L.
  destruct (span_digits s). intro H. injection H as <- <-. simpl in *. lia.
Qed.

Lemma exp_part_consumes (s r : pystr) (x : Z) :
  exp_part s = Some (x, r) -> (List.length r <= List.length s)%nat.
Proof.
  unfold exp_part. destruct s as [| e s]; [discriminate |].
  destruct ((e =? 101) || (e =? 69))%N; [| discriminate].
  assert (L : forall t, (List.length t <= List.length s)%nat ->
                        (List.length (snd (span_digits t)) <= List.length s)%nat).
  { intros t Ht. pose proof (span_digits_length t). lia. }
  destruct s as [| sg s'].
  - simpl. discriminate.
  - destruct (sg =? 45)%N; [| destruct (sg =? 43)%N].
    + specialize (L s'). destruct (span_digits s') as [[| d ds] r2]; [discriminate |].
      intro H. injection H as <- <-. simpl in *. lia.
    + specialize (L s'). destruct (span_digits s') as [[| d ds] r2]; [discriminate |].
      intro H. injection H as <- <-. simpl in *. lia.
    + specialize (L (sg :: s')).
      destruct (span_digits (sg :: s')) as [[| d ds] r2]; [discriminate |].
      intro H. injection H as <- <-. simpl in *. lia.
Qed.

Lemma match_number_consumes (s r : pystr) (v : pyvalue) :
  match_number s = Done v r -> (List.length r < List.length s)%nat.
Proof.
  unfold match_number.
  set (p := match s with
            | c :: r0 => if (c =? 45)%N then (true, r0) else (false, s)
            | [] => (false, s)
            end).
  assert (Hp : (List.length (snd p) <= List.length s)%nat).
  { subst p. destruct s as [| c r0]; simpl; [lia |].
    destruct (c =? 45)%N; simpl; lia. }
  destruct p as [neg s1]. simpl in Hp.
  destruct (int_part s1) as [[ids s2] |] eqn:Hi; [| discriminate].
  apply int_part_consumes in Hi.
  destruct (frac_part s2) as [[fds s3] |] eqn:Hf.
  - apply frac_part_consumes in Hf.
    destruct (exp_part s3) as [[x s4] |] eqn:He.
    + apply exp_part_consumes in He. intro H. injection H as _ <-. lia.
    + intro H. injection H as _ <-. lia.
  - destruct (exp_part s2) as [[x s4] |] eqn:He.
    + apply exp_part_consumes in He. intro H. injection H as _ <-. lia.
    + destruct (Nat.ltb _ _); [discriminate |].
      intro H. injection H as _ <-. lia.
Qed.

Lemma match_number_fed (s : pystr) : match_number s <> Starved.
Proof.
  unfold match_number.
  repeat (break_match; try discriminate).
Qed.

Lemma after_word_length (w : pystr) :
  forall s r, after_word w s = Some r ->
              List.length s = (List.length w + List.length r)%nat.
Proof.
  induction w as [| a w IH]; intros s r H; simpl in H.
  - injection H as <-. reflexivity.
  - destruct s as [| b s]; [discriminate |].
    destruct (N.eqb a b); [| discriminate].
    apply IH in H. simpl. lia.
Qed.

Lemma scan_consumes (fuel : nat) :
  (forall depth s v r, scan_once fuel depth s = Done v r ->
                       (List.length r < List.length s)%nat)
  /\ (forall depth s acc v r, parse_array fuel depth s acc = Done v r ->
                              (List.length r < List.length s)%nat)
  /\ (forall depth s acc v r, parse_object fuel depth s acc = Done v r ->
                              (List.length r < List.length s)%nat).
Proof.
  induction fuel as [| f (IHs & IHa & IHo)].
  - repeat split; intros; discriminate.
  - repeat split.
    + intros depth s v r H. cbn [scan_once] in H.
      destruct s as [| c r0]; [discriminate |].
      destruct (c =? 34)%N.
      { destruct (scanstring r0 []) eqn:E; try discriminate.
        injection H as <- <-.
        apply scanstring_consumes with (n := List.length r0) in E; simpl; lia. }
      destruct (c =? 123)%N.
      { destruct depth as [| depth]; [discriminate |].
        destruct (skip_ws r0) as [| c' r'] eqn:E; [discriminate |].
        pose proof (skip_ws_length r0) as L. rewrite E in L.
        destruct (c' =? 125)%N.
        - injection H as <- <-. simpl in *. lia.
        - apply IHo in H. simpl in *. lia. }
      destruct (c =? 91)%N.
      { destruct depth as [| depth]; [discriminate |].
        destruct (skip_ws r0) as [| c' r'] eqn:E; [discriminate |].
        pose proof (skip_ws_length r0) as L. rewrite E in L.
        destruct (c' =? 93)%N.
        - injection H as <- <-. simpl in *. lia.
        - apply IHa in H. simpl in *. lia. }
      repeat
        (match type of H with
         | match after_word ?w ?s with _ => _ end = _ =>
             let E := fresh "E" in
             destruct (after_word w s) eqn:E;
             [ apply after_word_length in E; injection H as <- <-;
               simpl in *; lia |]
         end).
      now apply match_number_consumes in H.
    + intros depth s acc v r H. cbn [parse_array] in H.
      destruct (scan_once f depth s) as [x r1 | | |] eqn:E; try discriminate.
      apply IHs in E.
      destruct (skip_ws r1) as [| c r2] eqn:E2; [discriminate |].
      apply skip_ws_cons in E2.
      destruct (c =? 93)%N.
      * injection H as <- <-. lia.
      * destruct (c =? 44)%N; [| discriminate].
        apply IHa in H. pose proof (skip_ws_length r2). lia.
    + intros depth s acc v r H. cbn [parse_object] in H.
      destruct s as [| q r0]; [discriminate |].
      destruct (q =? 34)%N; [| discriminate].
      destruct (scanstring r0 []) as [k r1 | | |] eqn:E; try discriminate.
      apply scanstring_consumes with (n := List.length r0) in E; [| lia].
      destruct (skip_ws r1) as [| col r2] eqn:E2; [discriminate |].
      apply skip_ws_cons in E2.
      destruct (col =? 58)%N; [| discriminate].
      destruct (scan_once f depth (skip_ws r2)) as [x r3 | | |] eqn:E3;
        try discriminate.
      apply IHs in E3. pose proof (skip_ws_length r2) as L2.
      destruct (skip_ws r3) as [| c r4] eqn:E4; [discriminate |].
      apply skip_ws_cons in E4.
      destruct (c =? 125)%N.
      * injection H as <- <-. simpl. lia.
      * destruct (c =? 44)%N; [| discriminate].
        apply IHo in H. pose proof (skip_ws_length r4). simpl. lia.
Qed.

Lemma scan_fed (fuel : nat) :
  (forall depth s, (2 * List.length s < fuel)%nat ->
                   scan_once fuel depth s <> Starved)
  /\ (forall depth s acc, (2 * List.length s + 1 < fuel)%nat ->
                          parse_array fuel depth s acc <> Starved)
  /\ (forall depth s acc, (2 * List.length s + 1 < fuel)%nat ->
                          parse_object fuel depth s acc <> Starved).
Proof.
  induction fuel as [| f (IHs & IHa & IHo)].
  - repeat split; intros; lia.
  - repeat split.
    + intros depth s Hf. cbn [scan_once].
      destruct s as [| c r0]; [discriminate |].
      simpl in Hf.
      destruct (c =? 34)%N.
      { destruct (scanstring r0 []) eqn:E; try discriminate.
        now apply scanstring_fed with (n := List.length r0) in E. }
      destruct (c =? 123)%N.
      { destruct depth as [| depth]; [discriminate |].
        destruct (skip_ws r0) as [| c' r'] eqn:E; [discriminate |].
        pose proof (skip_ws_length r0) as L. rewrite E in L.
        destruct (c' =? 125)%N; [discriminate |].
        apply IHo. simpl in *. lia. }
      destruct (c =? 91)%N.
      { destruct depth as [| depth]; [discriminate |].
        destruct (skip_ws r0) as [| c' r'] eqn:E; [discriminate |].
        pose proof (skip_ws_length r0) as L. rewrite E in L.
        destruct (c' =? 93)%N; [discriminate |].
        apply IHa. simpl in *. lia. }
      repeat
        (match goal with
         | |- match after_word ?w ?s with _ => _ end <> _ =>
             destruct (after_word w s); [discriminate |]
         end).
      apply match_number_fed.
    + intros depth s acc Hf. cbn [parse_array].
      destruct (scan_once f depth s) as [x r1 | | |] eqn:E; try discriminate.
      * apply (proj1 (scan_consumes f)) in E.
        destruct (skip_ws r1) as [| c r2] eqn:E2; [discriminate |].
        apply skip_ws_cons in E2.
        destruct (c =? 93)%N; [discriminate |].
        destruct (c =? 44)%N; [| discriminate].
        apply IHa. pose proof (skip_ws_length r2). lia.
      * exfalso. revert E. apply IHs. lia.
    + intros depth s acc Hf. cbn [parse_object].
      destruct s as [| q r0]; [discriminate |].
      simpl in Hf.
      destruct (q =? 34)%N; [| discriminate].
      destruct (scanstring r0 []) as [k r1 | | |] eqn:E; try discriminate.
      * apply scanstring_consumes with (n := List.length r0) in E; [| lia].
        destruct (skip_ws r1) as [| col r2] eqn:E2; [discriminate |].
        apply skip_ws_cons in E2.
        destruct (col =? 58)%N; [| discriminate].
        pose proof (skip_ws_length r2) as L2.
        destruct (scan_once f depth (skip_ws r2)) as [x r3 | | |] eqn:E3;
          try discriminate.
        -- apply (proj1 (scan_consumes f)) in E3.
           destruct (skip_ws r3) as [| c r4] eqn:E4; [discriminate |].
           apply skip_ws_cons in E4.
           destruct (c =? 125)%N; [discriminate |].
           destruct (c =? 44)%N; [| discriminate].
           apply IHo. pose proof (skip_ws_length r4). lia.
        -- exfalso. revert E3. apply IHs. lia.
      * now apply scanstring_fed with (n := List.length r0) in E.
Qed.

(** [decode] is never short of fuel: where it gives [JSONDecodeError] the
    scanner has failed or left something other than whitespace behind the
    value. *)
Lemma decode_fed (s : pystr) :
  scan_once (2 * List.length s + 2) recursion_headroom (skip_ws s) <> Starved.
Proof.
  apply (proj1 (scan_fed _)). pose proof (skip_ws_length s). lia.
Qed.

Lemma json_loads_decode (s : pystr) (v : pyvalue) :
  json_loads s = Some v <-> decode s = Ok v.
Proof.
  unfold json_loads. destruct (decode s); split; congruence.
Qed.

Example json_loads_call :
  json_loads (txt "['push', ['pipeline', -1, ['add'], [3, 4]]]")
  = Some (PList [PStr (txt "push");
                 PList [PStr (txt "pipeline"); PInt (-1);
                        PList [PStr (txt "add")]; PList [PInt 3; PInt 4]]]).
Proof. reflexivity. Qed.

Example json_loads_object :
  json_loads (txt " {'a': 1, 'b': [true, null], 'a': -2.50e1} ")
  = Some (PDict [(txt "a", PFloat (FDec true 250 (-1)));
                 (txt "b", PList [PBool true; PNone])]).
Proof. reflexivity. Qed.

Example json_loads_surrogate_pair :
  json_loads ([34; 92] ++ txt "ud83d" ++ [92] ++ txt "ude00" ++ [34])%N
  = Some (PStr [128512%N]).
Proof. reflexivity. Qed.

Example json_loads_rejects :
  map json_loads
      [txt "not-json"; txt ""; txt "[1,]"; txt "01"; txt "1."; txt "{'a':1,}";
       txt "[1 2]"; txt "'unterminated"; txt "nul"; txt "[1] x"]
  = [None; None; None; None; None; None; None; None; None; None].
Proof. reflexivity. Qed.

(* ------------------------------------------------------------------ *)
(** ** One iteration of the loop *)

Lemma pystr_eqb_eq (a b : pystr) : pystr_eqb a b = true <-> a = b.
Proof.
  revert b. induction a as [| x a IH]; intros [| y b]; simpl;
    try (split; [discriminate | discriminate]); [tauto |].
  rewrite andb_true_iff, N.eqb_eq, IH. split.
  - intros [-> ->]. reflexivity.
  - intro H. injection H as -> ->. auto.
Qed.

Lemma py_eq_str_true (v : pyvalue) (s : pystr) :
  py_eq_str v s = true -> v = PStr s.
Proof.
  destruct v; simpl; try discriminate.
  intro H. apply pystr_eqb_eq in H. now subst.
Qed.

Lemma py_eq_str_refl (s : pystr) : py_eq_str (PStr s) s = true.
Proof. simpl. now apply pystr_eqb_eq. Qed.

Ltac crunch :=
  unfold simulate_call, bind, lift, ret; simpl;
  rewrite ?andb_false_r; simpl;
  repeat (match goal with
          | |- context [if ?b then _ else _] => destruct b
          end; simpl);
  eauto.

Lemma simulate_call_cases (expr : list pyvalue) (w : list chunk) :
  ((simulate_call expr w = (Ok Next, w)
    \/ exists e, simulate_call expr w = (Raise e, w))
   /\ forall args, add_expr expr args -> py_len args <> Ok 2%nat)
  \/ exists args,
       add_expr expr args /\ py_len args = Ok 2%nat
       /\ simulate_call expr w = invoke_add args w.
Proof.
  assert (Hlen : forall args : pyvalue,
             (exists n, py_len args = Ok n) \/ py_len args = Raise TypeError).
  { intros []; simpl; eauto. }
  destruct expr as [| tag [| id [| mp [| args more]]]];
    try (left; split;
         [ left; reflexivity
         | intros a (t & i & p & m & E); discriminate ]).
  - (* no argument element: [args] is the empty list *)
    left. split.
    + destruct mp as [| [|] | z | f | [| c s] | [| m path] | [| kv0 kv]];
        crunch.
    + intros a (t & i & p & m & E). discriminate.
  - destruct mp as [| [|] | z | f | [| c s] | [| m path] | [| kv0 kv]].
    all: try (left; split;
              [ crunch | intros a (t & i & p & m' & E); discriminate ]).
    destruct (py_eq_str m (txt "add")) eqn:Em.
    + apply py_eq_str_true in Em. subst m.
      destruct (Hlen args) as [[n Hn] | Hn].
      * destruct (Nat.eqb n 2) eqn:E2.
        -- apply Nat.eqb_eq in E2. subst n.
           right. exists args. split; [| split]; trivial.
           ++ now exists tag, id, path, more.
           ++ unfold simulate_call, bind, lift, ret. simpl. now rewrite Hn.
        -- left. split.
           ++ left. unfold simulate_call, bind, lift, ret. simpl.
              now rewrite Hn, E2.
           ++ intros a (t & i & p & m' & E). injection E as _ _ _ <- _.
              rewrite Hn. intro H. injection H as ->. discriminate.
      * left. split.
        -- right. exists TypeError.
           unfold simulate_call, bind, lift, ret. simpl. now rewrite Hn.
        -- intros a (t & i & p & m' & E). injection E as _ _ _ <- _.
           rewrite Hn. discriminate.
    + left. split.
      * left. unfold simulate_call, bind, lift, ret.
        cbn [nth py_truthy py_len py_getitem nth_error List.length Nat.ltb Nat.leb].
        now rewrite Em.
      * intros a (t & i & p & m' & E). injection E as _ _ -> _ _.
        now rewrite py_eq_str_refl in Em.
Qed.

Ltac no_match Hj :=
  let a := fresh "a" in
  let H := fresh "H" in
  intros (a & [? ? ? ? H] & _); rewrite Hj in H;
  try discriminate;
  injection H as H; subst;
  try discriminate;
  rewrite ?py_eq_str_refl in *; discriminate.

Lemma loop_body_cases (line : pystr) (w : list chunk) :
  ((loop_body line w = (Ok Next, w)
    \/ exists e, loop_body line w = (Raise e, w))
   /\ ~ matches line)
  \/ exists args,
       add_push line args /\ py_len args = Ok 2%nat
       /\ loop_body line w = invoke_add args w.
Proof.
  unfold loop_body.
  assert (Hj : json_loads line
               = match decode line with Ok v => Some v | Raise _ => None end)
    by reflexivity.
  destruct (decode line) as [parsed | e] eqn:Hd.
  2: { left. split; [| no_match Hj].
       destruct e;
         solve [left; reflexivity | right; eexists; reflexivity]. }
  destruct parsed as [| b | z | f | s | [| msg rest] | kv];
    try (left; split; [left; reflexivity | no_match Hj]).
  destruct (py_eq_str msg (txt "push")) eqn:Ep.
  2: { left. split; [left; reflexivity | no_match Hj]. }
  apply py_eq_str_true in Ep. subst msg.
  destruct rest as [| expr rest].
  { left. split; [left; reflexivity | no_match Hj]. }
  destruct expr as [| b | z | f | s | [| tag more] | kv];
    try (left; split; [left; reflexivity | no_match Hj]).
  destruct (py_eq_str tag (txt "pipeline")) eqn:Et.
  2: { left. split; [left; reflexivity | no_match Hj]. }
  apply py_eq_str_true in Et. subst tag.
  destruct (simulate_call_cases (PStr (txt "pipeline") :: more) w)
    as [[Hrun Hno] | (args & (t & i & p & m & E) & Hlen & Hrun)].
  - left. split; [exact Hrun |].
    intros (a & [i p m r H] & Hl). rewrite Hj in H. injection H as -> _.
    apply (Hno a); [| exact Hl]. now exists (PStr (txt "pipeline")), i, p, m.
  - right. exists args. split; [| split]; trivial.
    injection E as <- ->.
    now apply add_push_intro with (id := i) (path := p) (more := m) (rest := rest).
Qed.

(* ------------------------------------------------------------------ *)
(** ** The call of [add] *)

Lemma encode_ok (s d : pystr) : encode s = Ok d -> d = s.
Proof. unfold encode. destruct (existsb is_surrogate s); congruence. Qed.

Lemma invoke_add_sent (args a b v : pyvalue) (t : pystr) (w : list chunk) :
  py_getitem args 0 = Ok a -> py_getitem args 1 = Ok b ->
  py_add a b = Ok v -> py_str v = Ok t ->
  existsb is_surrogate (resolve_line t) = false ->
  invoke_add args w = (Ok Return, w ++ early_reply (resolve_line t)).
Proof.
  intros Ha Hb Hv Ht He.
  unfold invoke_add, bind, lift, ret, encode.
  rewrite Ha, Hb, Hv, Ht, He.
  unfold send_response, send_header, end_headers, wfile_write, emit, early_reply.
  now rewrite <- !app_assoc.
Qed.

Lemma invoke_add_raises (args a b : pyvalue) (e : pyexn) (w : list chunk) :
  py_getitem args 0 = Ok a -> py_getitem args 1 = Ok b ->
  py_add a b = Raise e ->
  invoke_add args w = (Raise e, w).
Proof.
  intros Ha Hb Hv. unfold invoke_add, bind, lift. now rewrite Ha, Hb, Hv.
Qed.

(** A completed call has written the sum: nothing else makes [invoke_add]
    end without an exception. *)
Lemma invoke_add_inv (args : pyvalue) (f : flow) (w w' : list chunk) :
  invoke_add args w = (Ok f, w') ->
  f = Return
  /\ exists a b v t,
       py_getitem args 0 = Ok a /\ py_getitem args 1 = Ok b
       /\ py_add a b = Ok v /\ py_str v = Ok t
       /\ existsb is_surrogate (resolve_line t) = false
       /\ w' = w ++ early_reply (resolve_line t).
Proof.
  unfold invoke_add, bind, lift, ret, encode.
  destruct (py_getitem args 0) as [a |] eqn:Ha; try discriminate.
  destruct (py_getitem args 1) as [b |] eqn:Hb; try discriminate.
  destruct (py_add a b) as [v |] eqn:Hv; try discriminate.
  destruct (py_str v) as [t |] eqn:Ht; try discriminate.
  unfold send_response, send_header, end_headers, wfile_write, emit.
  destruct (existsb is_surrogate (resolve_line t)) eqn:He; try discriminate.
  intro H. injection H as <- <-. split; [reflexivity |].
  exists a, b, v, t. repeat split; trivial.
  unfold early_reply. now rewrite <- !app_assoc.
Qed.

(* ------------------------------------------------------------------ *)
(** ** The loop over the lines *)

Lemma for_lines_app_next (pre rest : list pystr) (w w' : list chunk) :
  for_lines pre w = (Ok Next, w') ->
  for_lines (pre ++ rest) w = for_lines rest w'.
Proof.
  revert w. induction pre as [| x pre IH]; intros w H; simpl in *.
  - unfold ret in H. now injection H as <-.
  - unfold bind in *.
    destruct (loop_body x w) as [[[|] | e] w1]; try discriminate.
    now apply IH.
Qed.

Lemma for_lines_app_stop (pre rest : list pystr) (r : res flow)
      (w w' : list chunk) :
  for_lines pre w = (r, w') -> r <> Ok Next ->
  for_lines (pre ++ rest) w = (r, w').
Proof.
  revert w. induction pre as [| x pre IH]; intros w H Hr; simpl in *.
  - unfold ret in H. injection H as <- <-. congruence.
  - unfold bind in *.
    destruct (loop_body x w) as [[[|] | e] w1]; trivial.
    now apply IH.
Qed.

(** A line over which every iteration falls through can be left out. *)
Lemma for_lines_skip (pre post : list pystr) (x : pystr) :
  (forall w, loop_body x w = (Ok Next, w)) ->
  forall w, for_lines (pre ++ x :: post) w = for_lines (pre ++ post) w.
Proof.
  intros Hx w.
  destruct (for_lines pre w) as [r w'] eqn:Hpre.
  destruct r as [[|] | e].
  - rewrite !(@for_lines_app_next _ _ _ _ Hpre). simpl. unfold bind.
    now rewrite Hx.
  - rewrite !(@for_lines_app_stop _ _ _ _ _ Hpre); congruence.
  - rewrite !(@for_lines_app_stop _ _ _ _ _ Hpre); congruence.
Qed.

(** Lines that do not match are passed over, or one of them raises before
    anything is written. *)
Lemma for_lines_unmatched (pre : list pystr) (w : list chunk) :
  Forall (fun l => ~ matches l) pre ->
  for_lines pre w = (Ok Next, w) \/ exists e, for_lines pre w = (Raise e, w).
Proof.
  induction 1 as [| x pre Hx _ IH]; simpl.
  - now left.
  - unfold bind.
    destruct (loop_body_cases x w)
      as [[[Hrun | (e & Hrun)] _] | (args & Hp & Hl & _)].
    + now rewrite Hrun.
    + right. exists e. now rewrite Hrun.
    + exfalso. apply Hx. now exists args.
Qed.

(** The lines up to the first match, when there is one. *)
Lemma first_match (lines : list pystr) :
  Forall (fun l => ~ matches l) lines
  \/ exists pre x post,
       lines = pre ++ x :: post
       /\ Forall (fun l => ~ matches l) pre /\ matches x.
Proof.
  induction lines as [| l lines IH].
  - now left.
  - destruct (loop_body_cases l []) as [[_ Hl] | (args & Hp & Hlen & _)].
    + destruct IH as [IH | (pre & x & post & -> & Hpre & Hx)].
      * left. now constructor.
      * right. exists (l :: pre), x, post. repeat split; trivial.
        now constructor.
    + right. exists [], l, lines. repeat split; trivial.
      now exists args.
Qed.

(** The first match decides the loop once the lines before it are passed. *)
Lemma for_lines_first_match (pre post : list pystr) (x : pystr)
      (args : pyvalue) (w : list chunk) :
  for_lines pre w = (Ok Next, w) ->
  add_push x args -> py_len args = Ok 2%nat ->
  for_lines (pre ++ x :: post) w =
    match invoke_add args w with
    | (Ok _, w') => (Ok Return, w')
    | other => other
    end.
Proof.
  intros Hpre Hp Hl.
  rewrite (@for_lines_app_next _ _ _ _ Hpre). simpl. unfold bind.
  assert (E : loop_body x w = invoke_add args w).
  { destruct (loop_body_cases x w) as [[_ Hno] | (args' & Hp' & _ & Hrun)].
    - exfalso. apply Hno. now exists args.
    - destruct Hp as [i p m r H], Hp' as [i' p' m' r' H'].
      rewrite H in H'. injection H' as _ _ <- _ _. exact Hrun. }
  rewrite E.
  destruct (invoke_add args w) as [[f | e] w1] eqn:Hrun; trivial.
  apply invoke_add_inv in Hrun. destruct Hrun as [-> _]. reflexivity.
Qed.

(* ------------------------------------------------------------------ *)
(** ** The handler on a line-delimited batch *)

Lemma framed_run {A : Type} (c : M A) (r : res A) (out : list chunk) :
  framed c -> c [] = (r, out) -> forall w, c w = (r, w ++ out).
Proof.
  intros (r' & out' & H) H0 w.
  rewrite H in H0. simpl in H0. injection H0 as <- <-. apply H.
Qed.

Lemma send_final_sent (response : pystr) (w : list chunk) :
  existsb is_surrogate response = false ->
  send_final response w = (Ok tt, w ++ final_reply response).
Proof.
  intro He.
  unfold send_final, bind, lift, encode. rewrite He.
  unfold send_response, send_header, end_headers, wfile_write, emit, final_reply.
  now rewrite <- !app_assoc.
Qed.

Lemma handle_newline (body : pystr) (w : list chunk) :
  contains nl body = true ->
  handle_batch_request body w =
    match for_lines (body_lines body) w with
    | (Ok Next, w') => (Ok tt, w' ++ final_reply default_line)
    | (Ok Return, w') => (Ok tt, w')
    | (Raise e, w') => (Raise e, w')
    end.
Proof.
  intro Hnl. unfold handle_batch_request. rewrite Hnl. unfold bind at 1 2.
  destruct (for_lines (body_lines body) w) as [[[|] | e] w']; trivial.
  unfold ret. now apply send_final_sent.
Qed.

(** Two line-delimited batches on which the loop runs alike are answered
    alike. *)
Lemma handle_same_loop (body1 body2 : pystr) (w : list chunk) :
  contains nl body1 = true -> contains nl body2 = true ->
  for_lines (body_lines body1) w = for_lines (body_lines body2) w ->
  handle_batch_request body1 w = handle_batch_request body2 w.
Proof.
  intros H1 H2 E. now rewrite !handle_newline, E.
Qed.

Lemma handle_skip (body1 body2 : pystr) (pre post : list pystr) (x : pystr)
      (w : list chunk) :
  contains nl body1 = true -> contains nl body2 = true ->
  body_lines body1 = pre ++ x :: post -> body_lines body2 = pre ++ post ->
  (forall w0, loop_body x w0 = (Ok Next, w0)) ->
  handle_batch_request body1 w = handle_batch_request body2 w.
Proof.
  intros H1 H2 E1 E2 Hx. apply handle_same_loop; trivial.
  rewrite E1, E2. now apply for_lines_skip.
Qed.

Lemma handle_first_match (body : pystr) (pre post : list pystr) (x : pystr)
      (args : pyvalue) (w : list chunk) :
  contains nl body = true ->
  body_lines body = pre ++ x :: post ->
  for_lines pre w = (Ok Next, w) ->
  add_push x args -> py_len args = Ok 2%nat ->
  handle_batch_request body w =
    match invoke_add args w with
    | (Ok _, w') => (Ok tt, w')
    | (Raise e, w') => (Raise e, w')
    end.
Proof.
  intros Hnl E Hpre Hp Hl.
  rewrite handle_newline, E by trivial.
  rewrite (for_lines_first_match pre post x args w Hpre Hp Hl).
  now destruct (invoke_add args w) as [[f | e] w1].
Qed.

(** What the loop has written when it ends without an exception: nothing
    when it falls through, one resolve when it returns. *)
Lemma for_lines_written (lines : list pystr) (f : flow) (w w' : list chunk) :
  for_lines lines w = (Ok f, w') ->
  (f = Next /\ w' = w)
  \/ (f = Return /\ exists t, w' = w ++ early_reply (resolve_line t)).
Proof.
  revert w. induction lines as [| x lines IH]; intros w H; simpl in H.
  - unfold ret in H. injection H as <- <-. now left.
  - unfold bind in H.
    destruct (loop_body_cases x w)
      as [[[Hrun | (e & Hrun)] _] | (args & _ & _ & Hrun)];
      rewrite Hrun in H.
    + now apply IH.
    + discriminate.
    + destruct (invoke_add args w) as [[g | e] w1] eqn:Hadd;
        try discriminate.
      destruct (invoke_add_inv _ _ _ _ Hadd)
        as (-> & a & b & v & t & _ & _ & _ & _ & _ & ->).
      unfold ret in H. injection H as <- <-. right. split; eauto.
Qed.

Lemma response_text_app (w1 w2 : list chunk) :
  response_text (w1 ++ w2) = response_text w1 ++ response_text w2.
Proof. unfold response_text. apply flat_map_app. Qed.

(** A completed run on a line-delimited batch has written one payload, a
    resolve for the identifier -1. *)
Lemma handle_newline_resolves (body : pystr) (w w' : list chunk) :
  contains nl body = true ->
  handle_batch_request body w = (Ok tt, w') ->
  exists t, response_text w' = response_text w ++ resolve_line t.
Proof.
  intros Hnl Hrun. rewrite handle_newline in Hrun by trivial.
  destruct (for_lines (body_lines body) w) as [[f | e] w1] eqn:Hloop;
    try discriminate.
  destruct (for_lines_written _ _ _ _ Hloop) as [[-> ->] | [-> (t & ->)]];
    injection Hrun as <-.
  - exists (txt "'ok'"). rewrite response_text_app. reflexivity.
  - exists t. rewrite response_text_app. simpl. now rewrite app_nil_r.
Qed.

(* ------------------------------------------------------------------ *)
(** ** The scenario of the pipelined sum *)

(** C1, amended: on the three-line scenario batch the handler answers with
    the single line [["resolve",-1,7]]: the sum 7 is reported against the
    fixed identifier -1, after the second line and without reading the
    pull. *)
Theorem scenario_reply (w : list chunk) :
  handle_batch_request scenario_batch w
  = (Ok tt, w ++ early_reply (txt "['resolve',-1,7]" ++ [nl]))
  /\ response_messages (early_reply (txt "['resolve',-1,7]" ++ [nl]))
     = [Some (PList [PStr (txt "resolve"); PInt (-1); PInt 7])].
Proof.
  split; [| reflexivity].
  apply framed_run; [apply framed_handle_batch_request | reflexivity].
Qed.

(* ------------------------------------------------------------------ *)
(** ** Pulls *)


(* ------------------------------------------------------------------ *)
(** ** Lines that are not JSON *)


(* ------------------------------------------------------------------ *)
(** ** The target identifier of a call *)

(** C4, amended: a batch whose one line pushes
    [["pipeline", id, ["add"], [1, 2]]] is answered [["resolve",-1,3]]
    whatever [id] is, allocated or not: the target identifier is read and
    not used. *)
Theorem target_identifier_is_ignored (body line : pystr) (id : pyvalue)
        (w : list chunk) :
  contains nl body = true ->
  body_lines body = [line] ->
  json_loads line
  = Some (PList [PStr (txt "push");
                 PList [PStr (txt "pipeline"); id; PList [PStr (txt "add")];
                        PList [PInt 1; PInt 2]]]) ->
  handle_batch_request body w
  = (Ok tt, w ++ early_reply (resolve_line (txt "3"))).
Proof.
  intros Hnl E Hj.
  rewrite (handle_first_match body [] [] line (PList [PInt 1; PInt 2]) w);
    trivial.
  - now rewrite (invoke_add_sent (PList [PInt 1; PInt 2]) (PInt 1) (PInt 2)
                   (PInt 3) (txt "3") w).
  - now apply add_push_intro with (id := id) (path := []) (more := [])
                                  (rest := []).
Qed.

(* ------------------------------------------------------------------ *)
(** ** The number of arguments *)

(** C5, amended: a pipeline call of [add] whose argument list does not hold
    exactly two arguments is not invoked and fails with no error: the line
    is passed over and the batch is answered as if the line were absent. *)
Theorem arity_mismatch_is_skipped (body1 body2 : pystr)
        (pre post : list pystr) (x : pystr) (id : pyvalue)
        (path args more rest : list pyvalue) (w : list chunk) :
  contains nl body1 = true -> contains nl body2 = true ->
  body_lines body1 = pre ++ x :: post ->
  body_lines body2 = pre ++ post ->
  json_loads x
  = Some (PList (PStr (txt "push")
                 :: PList (PStr (txt "pipeline") :: id
                           :: PList (PStr (txt "add") :: path)
                           :: PList args :: more)
                 :: rest)) ->
  List.length args <> 2%nat ->
  handle_batch_request body1 w = handle_batch_request body2 w.
Proof.
  intros H1 H2 E1 E2 Hx Hn.
  apply (handle_skip body1 body2 pre post x); trivial.
  intro w0. apply json_loads_decode in Hx. unfold loop_body. rewrite Hx.
  unfold simulate_call, bind, lift, ret. simpl.
  apply Nat.eqb_neq in Hn. now rewrite Hn.
Qed.

(* ------------------------------------------------------------------ *)
(** ** The legacy single-message form *)


(** C7: a body with no newline that parses as one JSON value is taken as
    the legacy form and answered with one JSON array, [[{"result":
    "test"}]], which is not newline-terminated as the lines of the
    line-delimited form are. *)
Theorem legacy_single_message (body : pystr) (parsed : pyvalue)
        (w : list chunk) :
  contains nl body = false ->
  json_loads body = Some parsed ->
  handle_batch_request body w = (Ok tt, w ++ final_reply legacy_text)
  /\ json_loads legacy_text = Some legacy_value
  /\ contains nl legacy_text = false.
Proof.
  intros Hnl Hj. split; [| split; reflexivity].
  apply json_loads_decode in Hj.
  unfold handle_batch_request. rewrite Hnl, Hj.
  change (json_dumps legacy_value) with (Ok legacy_text).
  unfold bind at 1 2. unfold lift, ret.
  now apply send_final_sent.
Qed.

(* ------------------------------------------------------------------ *)
(** ** The first call of [add] decides the response *)

(** C9, amended: whenever the handler completes on a line-delimited batch
    it has written exactly one payload.  If no line is a call of [add] with
    two arguments, the payload is the fixed line [["resolve",-1,"ok"]].
    Otherwise it is [["resolve",-1,<sum>]] for the first such line, sent by
    the early return, and every batch that agrees with this one up to that
    line is answered the same: no later line is examined or answered. *)
Theorem first_add_call_decides (body : pystr) (w w' : list chunk) :
  contains nl body = true ->
  handle_batch_request body w = (Ok tt, w') ->
  (Forall (fun l => ~ matches l) (body_lines body)
   /\ w' = w ++ final_reply default_line)
  \/ exists pre x post args a b v t,
       body_lines body = pre ++ x :: post
       /\ Forall (fun l => ~ matches l) pre
       /\ add_push x args /\ py_len args = Ok 2%nat
       /\ py_getitem args 0 = Ok a /\ py_getitem args 1 = Ok b
       /\ py_add a b = Ok v /\ py_str v = Ok t
       /\ w' = w ++ early_reply (resolve_line t)
       /\ forall body2 post2,
            contains nl body2 = true ->
            body_lines body2 = pre ++ x :: post2 ->
            handle_batch_request body2 w = (Ok tt, w').
Proof.
  intros Hnl Hrun.
  destruct (first_match (body_lines body))
    as [Hno | (pre & x & post & E & Hpre & (args & Hp & Hl))].
  - left. split; [exact Hno |].
    rewrite handle_newline in Hrun by trivial.
    destruct (for_lines_unmatched _ w Hno) as [H | (e & H)];
      rewrite H in Hrun; [now injection Hrun as <- | discriminate].
  - right.
    destruct (for_lines_unmatched _ w Hpre) as [H | (e & H)].
    + rewrite (handle_first_match body pre post x args w Hnl E H Hp Hl) in Hrun.
      destruct (invoke_add args w) as [[f | e] w1] eqn:Hadd;
        try discriminate.
      injection Hrun as ->.
      destruct (invoke_add_inv _ _ _ _ Hadd)
        as (_ & a & b & v & t & Ha & Hb & Hv & Ht & He & Hw).
      exists pre, x, post, args, a, b, v, t.
      repeat (split; trivial).
      intros body2 post2 Hnl2 E2.
      rewrite (handle_first_match body2 pre post2 x args w Hnl2 E2 H Hp Hl).
      now rewrite Hadd.
    + rewrite handle_newline, E in Hrun by trivial.
      rewrite (@for_lines_app_stop _ (x :: post) _ _ _ H) in Hrun;
        discriminate.
Qed.

(* ------------------------------------------------------------------ *)
(** ** Operands without a sum *)

(** C10: when the first call of [add] with two arguments carries operands
    that [+] does not accept, the handler ends in an uncaught exception and
    writes nothing; the exception is the [TypeError] of [args[0] + args[1]]
    once the lines before the call have been passed. *)
Theorem unsupported_operands_raise (body : pystr) (pre post : list pystr)
        (x : pystr) (args a b : pyvalue) (w : list chunk) :
  contains nl body = true ->
  body_lines body = pre ++ x :: post ->
  Forall (fun l => ~ matches l) pre ->
  add_push x args -> py_len args = Ok 2%nat ->
  py_getitem args 0 = Ok a -> py_getitem args 1 = Ok b ->
  py_add a b = Raise TypeError ->
  exists e,
    handle_batch_request body w = (Raise e, w)
    /\ (for_lines pre w = (Ok Next, w) -> e = TypeError).
Proof.
  intros Hnl E Hpre Hp Hl Ha Hb Hadd.
  destruct (for_lines_unmatched pre w Hpre) as [H | (e & H)].
  - exists TypeError. split; [| reflexivity].
    rewrite (handle_first_match body pre post x args w); trivial.
    now rewrite (invoke_add_raises args a b TypeError w).
  - exists e. split.
    + rewrite handle_newline, E by trivial.
      rewrite (for_lines_app_stop pre (x :: post) (Raise e) w w H);
        [reflexivity | discriminate].
    + rewrite H. discriminate.
Qed.

(* ------------------------------------------------------------------ *)
(** ** What a handler writes *)

Section Writes.

Context {A B : Type} (P : chunk -> Prop).

Lemma writes_ret (a : A) : writes P (ret a).
Proof. intro w. exists (Ok a), []. split; [| constructor]. unfold ret. now rewrite app_nil_r. Qed.

Lemma writes_lift (r : res A) : writes P (lift r).
Proof. intro w. exists r, []. split; [| constructor]. unfold lift. now rewrite app_nil_r. Qed.

Lemma writes_bind (c : M A) (k : A -> M B) :
  writes P c -> (forall a, writes P (k a)) -> writes P (bind c k).
Proof.
  intros Hc Hk w. unfold bind.
  destruct (Hc w) as (r & out & -> & Hout).
  destruct r as [a | e].
  - destruct (Hk a (w ++ out)) as (r' & out' & -> & Hout').
    exists r', (out ++ out'). split; [now rewrite app_assoc |].
    apply Forall_app. now split.
  - now exists (Raise e), out.
Qed.

End Writes.

Lemma writes_emit (P : chunk -> Prop) (c : chunk) : P c -> writes P (emit c).
Proof.
  intros H w. exists (Ok tt), [c]. split; [reflexivity |]. now constructor.
Qed.

Ltac written :=
  repeat first
    [ apply writes_ret | apply writes_lift
    | apply writes_emit; exact I
    | apply writes_emit; reflexivity
    | apply writes_bind
    | match goal with
      | |- writes _ (if ?b then _ else _) => destruct b
      | |- writes _ (match ?x with _ => _ end) => destruct x
      | |- forall _, writes _ _ => intro
      end ].

Lemma writes_loop_body_200 (line : pystr) : writes status_200 (loop_body line).
Proof.
  unfold loop_body, simulate_call, invoke_add.
  unfold send_response, send_header, end_headers, wfile_write.
  written.
Qed.

Lemma writes_for_lines_200 (lines : list pystr) :
  writes status_200 (for_lines lines).
Proof.
  induction lines as [| line rest IH]; simpl.
  - apply writes_ret.
  - apply writes_bind; [apply writes_loop_body_200 |].
    intros [|]; [exact IH | apply writes_ret].
Qed.

Lemma writes_handle_200 (body : pystr) :
  writes status_200 (handle_batch_request body).
Proof.
  unfold handle_batch_request.
  apply writes_bind.
  - destruct (contains nl body).
    + apply writes_bind; [apply writes_for_lines_200 |].
      intros [|]; apply writes_ret.
    + destruct (json_loads body); written.
  - intros [response |]; [| apply writes_ret].
    unfold send_final, send_response, send_header, end_headers, wfile_write.
    written.
Qed.

(** X1: every status line written for a POST is 200 when the path is
    exactly [/rpc/batch], whatever the body and however the handler ends,
    and 404 for any other path, where the body is not evaluated and nothing
    is raised. *)
Theorem post_status (error_page : pystr) (path : string) (body : pystr)
        (w : list chunk) :
  exists r out,
    do_POST error_page path body w = (r, w ++ out)
    /\ if String.eqb path "/rpc/batch"
       then Forall status_200 out
       else r = Ok tt
            /\ forall code, In (StatusLine code) out -> code = 404%Z.
Proof.
  unfold do_POST. destruct (String.eqb path "/rpc/batch").
  - apply writes_handle_200.
  - unfold send_error_404, bind, send_response, send_header, end_headers,
      wfile_write, emit, ret.
    destruct error_page as [| c page].
    + eexists _, _. split; [now rewrite <- !app_assoc |].
      split; [reflexivity |].
      intros code Hin. simpl in Hin.
      repeat (destruct Hin as [Hin | Hin]; try discriminate; try now injection Hin).
      contradiction.
    + eexists _, _. split; [now rewrite <- !app_assoc |].
      split; [reflexivity |].
      intros code Hin. simpl in Hin.
      repeat (destruct Hin as [Hin | Hin]; try discriminate; try now injection Hin).
      contradiction.
Qed.

(* ------------------------------------------------------------------ *)
(** ** Uncaught exceptions *)

Lemma scanstring_no_crash (n : nat) :
  forall s acc e, (List.length s <= n)%nat -> scanstring s acc <> Crash e.
Proof.
  induction n as [| n IH]; intros s acc e Hn.
  - destruct s; [discriminate | simpl in Hn; lia].
  - destruct s as [| c s]; [discriminate |].
    simpl in Hn. cbn [scanstring].
    repeat (break_match; try discriminate);
      subst; apply IH; simpl in *; lia.
Qed.

Lemma match_number_crash (s : pystr) (e : pyexn) :
  match_number s = Crash e -> e = ValueError.
Proof.
  unfold match_number.
  repeat (break_match; try discriminate); congruence.
Qed.

(** The scanner raises nothing but [ValueError], for an integer above the
    digit limit, and [RecursionError]. *)
Lemma scan_crash (fuel : nat) :
  (forall depth s e, scan_once fuel depth s = Crash e ->
                     e = ValueError \/ e = RecursionError)
  /\ (forall depth s acc e, parse_array fuel depth s acc = Crash e ->
                            e = ValueError \/ e = RecursionError)
  /\ (forall depth s acc e, parse_object fuel depth s acc = Crash e ->
                            e = ValueError \/ e = RecursionError).
Proof.
  induction fuel as [| f (IHs & IHa & IHo)].
  - repeat split; intros; discriminate.
  - repeat split.
    + intros depth s e H. cbn [scan_once] in H.
      destruct s as [| c r0]; [discriminate |].
      destruct (c =? 34)%N.
      { destruct (scanstring r0 []) eqn:E; try discriminate.
        now apply scanstring_no_crash with (n := List.length r0) in E. }
      destruct (c =? 123)%N.
      { destruct depth as [| depth]; [right; congruence |].
        destruct (skip_ws r0) as [| c' r']; [discriminate |].
        destruct (c' =? 125)%N; [discriminate |].
        now apply IHo in H. }
      destruct (c =? 91)%N.
      { destruct depth as [| depth]; [right; congruence |].
        destruct (skip_ws r0) as [| c' r']; [discriminate |].
        destruct (c' =? 93)%N; [discriminate |].
        now apply IHa in H. }
      repeat
        (match type of H with
         | match after_word ?w ?s with _ => _ end = _ =>
             destruct (after_word w s); [discriminate |]
         end).
      left. now apply match_number_crash in H.
    + intros depth s acc e H. cbn [parse_array] in H.
      destruct (scan_once f depth s) as [x r1 | | e1 |] eqn:E;
        try discriminate.
      * destruct (skip_ws r1) as [| c r2]; [discriminate |].
        destruct (c =? 93)%N; [discriminate |].
        destruct (c =? 44)%N; [| discriminate].
        now apply IHa in H.
      * injection H as <-. now apply IHs in E.
    + intros depth s acc e H. cbn [parse_object] in H.
      destruct s as [| q r0]; [discriminate |].
      destruct (q =? 34)%N; [| discriminate].
      destruct (scanstring r0 []) as [k r1 | | e1 |] eqn:E; try discriminate.
      * destruct (skip_ws r1) as [| col r2]; [discriminate |].
        destruct (col =? 58)%N; [| discriminate].
        destruct (scan_once f depth (skip_ws r2)) as [x r3 | | e1 |] eqn:E3;
          try discriminate.
        -- destruct (skip_ws r3) as [| c r4]; [discriminate |].
           destruct (c =? 125)%N; [discriminate |].
           destruct (c =? 44)%N; [| discriminate].
           now apply IHo in H.
        -- injection H as <-. now apply IHs in E3.
      * now apply scanstring_no_crash with (n := List.length r0) in E.
Qed.

(** What [json.loads] raises. *)
Lemma decode_raise (s : pystr) (e : pyexn) :
  decode s = Raise e ->
  e = JSONDecodeError \/ e = ValueError \/ e = RecursionError.
Proof.
  unfold decode.
  destruct (scan_once _ _ _) as [v r | | e1 |] eqn:E.
  - destruct (skip_ws r); [discriminate |]. intro H. injection H as <-. auto.
  - intro H. injection H as <-. auto.
  - intro H. injection H as <-. right.
    now apply (proj1 (scan_crash _)) in E.
  - intro H. injection H as <-. auto.
Qed.

Lemma int_repr_raise (z : Z) (e : pyexn) :
  int_repr z = Raise e -> e = ValueError.
Proof. unfold int_repr. destruct (Nat.ltb _ _); congruence. Qed.

(** [repr] raises nothing but the [ValueError] of an integer above the
    digit limit. *)
Lemma py_repr_raise :
  forall (v : pyvalue) (e : pyexn), py_repr v = Raise e -> e = ValueError.
Proof.
  fix IH 1. intros v e.
  destruct v as [| [|] | z | f | s | l | kv]; try discriminate.
  - apply int_repr_raise.
  - cbn [py_repr].
    match goal with
    | |- res_bind (?items l) _ = _ -> _ =>
        assert (Hl : forall e0, items l = Raise e0 -> e0 = ValueError)
    end.
    { induction l as [| x l IHl]; intro e0; [discriminate |].
      pose proof (IH x) as Hx.
      destruct (py_repr x) as [a | e1] eqn:Ex.
      - cbn [res_bind]. destruct l as [| y l']; [discriminate |].
        specialize (IHl e0).
        match goal with
        | |- res_bind ?t _ = _ -> _ => destruct t; [discriminate |]
        end.
        exact IHl.
      - cbn [res_bind]. intro H. injection H as <-. now apply Hx. }
    match goal with
    | |- res_bind ?t _ = _ -> _ =>
        pose proof (Hl e) as H1; destruct t; [discriminate |]
    end.
    exact H1.
  - cbn [py_repr].
    match goal with
    | |- res_bind (?items kv) _ = _ -> _ =>
        assert (Hl : forall e0, items kv = Raise e0 -> e0 = ValueError)
    end.
    { induction kv as [| [k x] kv IHl]; intro e0; [discriminate |].
      pose proof (IH x) as Hx.
      destruct (py_repr x) as [a | e1] eqn:Ex.
      - cbn [res_bind]. destruct kv as [| y kv']; [discriminate |].
        specialize (IHl e0).
        match goal with
        | |- res_bind ?t _ = _ -> _ => destruct t; [discriminate |]
        end.
        exact IHl.
      - cbn [res_bind]. intro H. injection H as <-. now apply Hx. }
    match goal with
    | |- res_bind ?t _ = _ -> _ =>
        pose proof (Hl e) as H1; destruct t; [discriminate |]
    end.
    exact H1.
Qed.

Lemma py_str_raise (v : pyvalue) (e : pyexn) :
  py_str v = Raise e -> e = ValueError.
Proof.
  destruct v; try apply py_repr_raise. discriminate.
Qed.

Lemma py_add_raise (a b : pyvalue) (e : pyexn) :
  py_add a b = Raise e -> e = TypeError \/ e = OverflowError.
Proof.
  destruct a as [| [|] | ? | ? | ? | ? | ?], b as [| [|] | ? | ? | ? | ? | ?];
    cbn [py_add]; unfold float_add_int, int_add_float;
    try (destruct (float_of_int _));
    intro H; try discriminate; injection H as <-; auto.
Qed.

Lemma py_len_raise (v : pyvalue) (e : pyexn) :
  py_len v = Raise e -> e = TypeError.
Proof. destruct v; simpl; congruence. Qed.

(** An index below the length is never out of range. *)
Lemma py_getitem_guarded (v : pyvalue) (i n : nat) (e : pyexn) :
  py_len v = Ok n -> (i < n)%nat -> py_getitem v i = Raise e -> e = KeyError.
Proof.
  destruct v as [| b | z | f | s | l | kv]; simpl; try discriminate.
  - intros H Hi. injection H as <-.
    destruct (nth_error s i) eqn:E; [discriminate |].
    apply nth_error_None in E. lia.
  - intros H Hi. injection H as <-.
    destruct (nth_error l i) eqn:E; [discriminate |].
    apply nth_error_None in E. lia.
  - congruence.
Qed.

Lemma invoke_add_raise_inv (args : pyvalue) (e : pyexn) (w w' : list chunk) :
  py_len args = Ok 2%nat ->
  invoke_add args w = (Raise e, w') ->
  (unanswered e /\ e <> RecursionError /\ w' = w)
  \/ (e = UnicodeEncodeError /\ w' = w ++ early_headers).
Proof.
  intros Hl. unfold invoke_add, bind, lift, ret, unanswered.
  destruct (py_getitem args 0) as [a | e1] eqn:Ha.
  2: { intro H. injection H as <- <-. left.
       apply (py_getitem_guarded args 0 2) in Ha; auto.
       subst e1. repeat split; auto. discriminate. }
  destruct (py_getitem args 1) as [b | e1] eqn:Hb.
  2: { intro H. injection H as <- <-. left.
       apply (py_getitem_guarded args 1 2) in Hb; auto.
       subst e1. repeat split; auto. discriminate. }
  destruct (py_add a b) as [v | e1] eqn:Hv.
  2: { intro H. injection H as <- <-. left.
       apply py_add_raise in Hv.
       destruct Hv as [-> | ->]; repeat split; auto; discriminate. }
  destruct (py_str v) as [t | e1] eqn:Ht.
  2: { intro H. injection H as <- <-. left.
       apply py_str_raise in Ht. subst e1.
       repeat split; auto. discriminate. }
  unfold send_response, send_header, end_headers, wfile_write, emit, encode.
  destruct (existsb is_surrogate (resolve_line t)); [| discriminate].
  intro H. injection H as <- <-. right. split; [reflexivity |].
  unfold early_headers. now rewrite <- !app_assoc.
Qed.

Lemma simulate_call_raise (expr : list pyvalue) (e : pyexn)
      (w w' : list chunk) :
  simulate_call expr w = (Raise e, w') ->
  (unanswered e /\ e <> RecursionError /\ w' = w)
  \/ (e = UnicodeEncodeError /\ w' = w ++ early_headers).
Proof.
  unfold simulate_call, bind, lift, ret.
  generalize (nth 2 expr (PList [])) as mp, (nth 3 expr (PList [])) as args.
  intros mp args.
  assert (Ht : unanswered TypeError /\ TypeError <> RecursionError).
  { unfold unanswered. split; [auto | discriminate]. }
  assert (Hk' : unanswered KeyError /\ KeyError <> RecursionError).
  { unfold unanswered. split; [auto | discriminate]. }
  destruct (py_truthy mp); [| discriminate].
  destruct (py_len mp) as [n | e1] eqn:Hn.
  2: { intro H. injection H as <- <-. apply py_len_raise in Hn. subst e1.
       left. tauto. }
  destruct (Nat.ltb_spec 0 n) as [Hpos |]; [| discriminate].
  destruct (py_getitem mp 0) as [method | e1] eqn:Hg.
  2: { intro H. injection H as <- <-.
       apply (py_getitem_guarded mp 0 n) in Hg; auto. subst e1.
       left. tauto. }
  destruct (py_eq_str method (txt "add")); [| discriminate].
  destruct (py_len args) as [k | e1] eqn:Hk.
  2: { intro H. injection H as <- <-. apply py_len_raise in Hk. subst e1.
       left. tauto. }
  destruct (Nat.eqb_spec k 2) as [-> |]; [| discriminate].
  now apply invoke_add_raise_inv.
Qed.

Lemma loop_body_raise (line : pystr) (e : pyexn) (w w' : list chunk) :
  loop_body line w = (Raise e, w') ->
  (unanswered e /\ w' = w)
  \/ (e = UnicodeEncodeError /\ w' = w ++ early_headers).
Proof.
  unfold loop_body.
  destruct (decode line) as [parsed | e1] eqn:Hd.
  - intro H.
    assert (Hs : forall expr, simulate_call expr w = (Raise e, w') ->
                 (unanswered e /\ w' = w)
                 \/ (e = UnicodeEncodeError /\ w' = w ++ early_headers)).
    { intros expr Hr. apply simulate_call_raise in Hr. tauto. }
    revert H.
    repeat match goal with
           | |- context [match ?x with _ => _ end] => destruct x
           end;
      try discriminate; apply Hs.
  - apply decode_raise in Hd. unfold unanswered.
    destruct Hd as [-> | [-> | ->]]; [discriminate | |];
      intro H; injection H as <- <-; left; tauto.
Qed.

Lemma loop_body_next (line : pystr) (w w' : list chunk) :
  loop_body line w = (Ok Next, w') -> w' = w.
Proof.
  intro H.
  destruct (for_lines_written [line] Next w w') as [[_ E] | [E _]];
    [| exact E | discriminate].
  simpl. unfold bind. now rewrite H.
Qed.

Lemma for_lines_raise (lines : list pystr) (e : pyexn) (w w' : list chunk) :
  for_lines lines w = (Raise e, w') ->
  (unanswered e /\ w' = w)
  \/ (e = UnicodeEncodeError /\ w' = w ++ early_headers).
Proof.
  revert w. induction lines as [| x lines IH]; intros w H; simpl in H.
  - discriminate.
  - unfold bind in H.
    destruct (loop_body x w) as [[[|] | e1] w1] eqn:Hx.
    + apply loop_body_next in Hx. subst w1. now apply IH.
    + discriminate.
    + injection H as <- <-. now apply loop_body_raise in Hx.
Qed.

(** An uncaught exception leaves the connection as it was, unless it is
    the [UnicodeEncodeError] of the early return; on a body without a line
    break it is an exception of [json.loads]. *)
Lemma handle_raise (body : pystr) (e : pyexn) (w w' : list chunk) :
  handle_batch_request body w = (Raise e, w') ->
  ((unanswered e /\ w' = w)
   \/ (e = UnicodeEncodeError /\ w' = w ++ early_headers))
  /\ (contains nl body = false ->
      decode body = Raise e /\ (e = ValueError \/ e = RecursionError)
      /\ w' = w).
Proof.
  destruct (contains nl body) eqn:Hnl.
  - rewrite handle_newline by trivial. intro H. split; [| discriminate].
    destruct (for_lines (body_lines body) w) as [[[|] | e1] w1] eqn:Hl;
      try discriminate.
    injection H as <- <-. now apply for_lines_raise in Hl.
  - unfold handle_batch_request. rewrite Hnl.
    destruct (decode body) as [parsed | e1] eqn:Hd.
    + change (json_dumps legacy_value) with (Ok legacy_text).
      unfold bind at 1 2. unfold lift, ret.
      rewrite send_final_sent by reflexivity. discriminate.
    + pose proof (decode_raise body e1 Hd) as He.
      destruct He as [-> | He].
      * unfold bind at 1. unfold ret at 1.
        rewrite send_final_sent by reflexivity. discriminate.
      * assert (Hrun : forall k : option pystr -> M unit,
                   bind (match e1 with
                         | JSONDecodeError => ret (Some reject_line)
                         | _ => lift (Raise e1)
                         end) k w = (Raise e1, w)).
        { intro k. destruct He as [-> | ->]; reflexivity. }
        rewrite Hrun. intro H. injection H as <- <-.
        unfold unanswered. split; [left; tauto | intros _; tauto].
Qed.

(** X2: when the handler ends in an uncaught exception, no part of a
    response body has been written; the connection is untouched, or, when
    the exception is [UnicodeEncodeError], it holds the status line and the
    headers of the early return and nothing after them. *)
Theorem exception_leaves_no_body (body : pystr) (e : pyexn)
        (w w' : list chunk) :
  handle_batch_request body w = (Raise e, w') ->
  response_text w' = response_text w
  /\ (w' = w \/ (e = UnicodeEncodeError /\ w' = w ++ early_headers)).
Proof.
  intro H. apply handle_raise in H.
  destruct H as [[[_ ->] | [-> ->]] _].
  - split; [reflexivity | now left].
  - split; [| now right].
    rewrite response_text_app. simpl. now rewrite app_nil_r.
Qed.


(* ------------------------------------------------------------------ *)
(** ** The lines of a body *)

Lemma str_split_nonempty (sep : N) (s : pystr) : str_split sep s <> [].
Proof.
  destruct s as [| c r]; simpl; [discriminate |].
  destruct (N.eqb c sep); [discriminate |].
  destruct (str_split sep r); discriminate.
Qed.

(** Splitting distributes over a separator. *)
Lemma str_split_app (sep : N) (a b : pystr) :
  str_split sep (a ++ sep :: b) = str_split sep a ++ str_split sep b.
Proof.
  induction a as [| c a IH]; simpl.
  - now rewrite N.eqb_refl.
  - destruct (N.eqb c sep); [now rewrite IH |].
    rewrite IH. pose proof (str_split_nonempty sep a) as Hne.
    destruct (str_split sep a); [contradiction | reflexivity].
Qed.

Lemma str_split_no_sep (sep : N) (s : pystr) :
  ~ In sep s -> str_split sep s = [s].
Proof.
  induction s as [| c r IH]; simpl; intro H; [reflexivity |].
  destruct (N.eqb_spec c sep) as [-> | _]; [exfalso; auto |].
  now rewrite IH by auto.
Qed.

Lemma str_split_segments (sep : N) (s seg : pystr) :
  In seg (str_split sep s) -> ~ In sep seg /\ incl seg s.
Proof.
  revert seg. induction s as [| c r IH]; simpl; intros seg H.
  - destruct H as [<- | []]. split; [intros [] | apply incl_refl].
  - destruct (N.eqb_spec c sep) as [-> | Hc].
    + destruct H as [<- | H].
      * split; [intros [] | intros x []].
      * destruct (IH seg H) as [H1 H2]. split; [exact H1 |].
        now apply incl_tl.
    + pose proof (str_split_nonempty sep r) as Hne.
      destruct (str_split sep r) as [| p ps]; [contradiction |].
      destruct H as [<- | H].
      * destruct (IH p (or_introl eq_refl)) as [H1 H2]. split.
        -- intros [E | Hin]; [now apply Hc | now apply H1].
        -- intros x [<- | Hin]; [now left | right; now apply H2].
      * destruct (IH seg (or_intror H)) as [H1 H2]. split; [exact H1 |].
        now apply incl_tl.
Qed.

Lemma body_lines_app (a b : pystr) :
  body_lines (a ++ nl :: b) = body_lines a ++ body_lines b.
Proof.
  unfold body_lines. now rewrite str_split_app, filter_app, map_app.
Qed.

Lemma lstrip_incl (s : pystr) : incl (lstrip s) s.
Proof.
  induction s as [| c r IH]; simpl; [apply incl_refl |].
  destruct (isspace c); [now apply incl_tl | apply incl_refl].
Qed.

Lemma lstrip_head (s r : pystr) (c : N) :
  lstrip s = c :: r -> isspace c = false.
Proof.
  induction s as [| d s IH]; simpl; [discriminate |].
  destruct (isspace d) eqn:E; [exact IH |].
  intro H. now injection H as <- _.
Qed.

Lemma lstrip_fixed (s : pystr) (c : N) :
  isspace c = false -> lstrip (c :: s) = c :: s.
Proof. intro H. simpl. now rewrite H. Qed.

Lemma lstrip_spaces (s : pystr) :
  forallb isspace s = true -> lstrip s = [].
Proof.
  induction s as [| c r IH]; simpl; [reflexivity |].
  destruct (isspace c); [exact IH | discriminate].
Qed.

(** Unless everything before it is whitespace, a character at the end
    stays at the end. *)
Lemma lstrip_snoc (s : pystr) (c : N) :
  lstrip (s ++ [c]) =
    if forallb isspace s then lstrip [c] else lstrip s ++ [c].
Proof.
  induction s as [| d s IH]; [reflexivity |].
  cbn [app lstrip forallb]. destruct (isspace d); [exact IH | reflexivity].
Qed.

Lemma strip_incl (s : pystr) : incl (strip s) s.
Proof.
  unfold strip. intros x H. apply in_rev in H.
  apply lstrip_incl in H. apply in_rev in H. now apply lstrip_incl in H.
Qed.

(** A string with no whitespace at either end is its own [strip]. *)
Lemma strip_fixed (c d : N) (m : pystr) :
  isspace c = false -> isspace d = false ->
  strip (c :: m ++ [d]) = c :: m ++ [d].
Proof.
  intros Hc Hd. unfold strip. rewrite (lstrip_fixed _ c Hc).
  change (c :: m ++ [d]) with ((c :: m) ++ [d]).
  rewrite rev_app_distr. simpl rev at 2. cbn [app].
  rewrite (lstrip_fixed _ d Hd).
  change (d :: rev (c :: m)) with ([d] ++ rev (c :: m)).
  now rewrite rev_app_distr, rev_involutive.
Qed.

(** What [strip] leaves is empty or has no whitespace at either end. *)
Lemma strip_ends (s : pystr) :
  strip s = []
  \/ exists c d m,
       isspace c = false /\ isspace d = false
       /\ (strip s = [c] /\ d = c \/ strip s = c :: m ++ [d]).
Proof.
  unfold strip.
  destruct (lstrip s) as [| c r] eqn:E1; [now left |].
  apply lstrip_head in E1.
  destruct (lstrip (rev (c :: r))) as [| d u] eqn:E2.
  - now left.
  - right. pose proof (lstrip_head _ _ _ E2) as Hd.
    assert (Hu : exists m', u = m' ++ [c] \/ (u = [] /\ d = c)).
    { simpl rev in E2. rewrite lstrip_snoc in E2.
      destruct (forallb isspace (rev r)).
      - rewrite (lstrip_fixed [] c E1) in E2. injection E2 as <- <-.
        exists []. now right.
      - destruct (lstrip (rev r)) as [| d' u'] eqn:E3.
        + simpl in E2. injection E2 as <- <-. exists []. now right.
        + simpl in E2. injection E2 as <- <-. exists u'. now left. }
    destruct Hu as (m' & [-> | [-> ->]]).
    + exists c, d, (rev m'). repeat split; trivial. right.
      simpl. rewrite rev_app_distr. reflexivity.
    + exists c, c, []. repeat split; trivial. now left.
Qed.

Lemma strip_idempotent (s : pystr) : strip (strip s) = strip s.
Proof.
  destruct (strip_ends s) as [-> | (c & d & m & Hc & Hd & [[-> _] | ->])].
  - reflexivity.
  - unfold strip. simpl. rewrite Hc. simpl. now rewrite Hc.
  - now apply strip_fixed.
Qed.


(** X4: the lines the handler decodes are never empty, hold no line break,
    and have no whitespace at either end: [strip] changes none of them. *)
Theorem body_lines_clean (body line : pystr) :
  In line (body_lines body) ->
  line <> [] /\ ~ In nl line /\ strip line = line.
Proof.
  unfold body_lines. intro H.
  apply in_map_iff in H. destruct H as (seg & <- & H).
  apply filter_In in H. destruct H as [Hseg Hne].
  repeat split.
  - now destruct (strip seg).
  - intro Hin. apply strip_incl in Hin.
    now apply (proj1 (str_split_segments nl body seg Hseg)).
  - apply strip_idempotent.
Qed.

(* ------------------------------------------------------------------ *)
(** ** Line endings *)

Lemma strip_snoc_space (s : pystr) (c : N) :
  isspace c = true -> strip (s ++ [c]) = strip s.
Proof.
  intro H. unfold strip. rewrite lstrip_snoc.
  destruct (forallb isspace s) eqn:E.
  - rewrite (lstrip_spaces s E). simpl. now rewrite H.
  - rewrite rev_app_distr. simpl. now rewrite H.
Qed.

Lemma str_split_last (sep : N) (s : pystr) :
  exists pre last,
    str_split sep s = pre ++ [last]
    /\ forall c, c <> sep -> str_split sep (s ++ [c]) = pre ++ [last ++ [c]].
Proof.
  induction s as [| d s (pre & last & E & Hc)].
  - exists [], []. split; [reflexivity |].
    intros c Hne. simpl. apply N.eqb_neq in Hne. now rewrite Hne.
  - simpl. destruct (N.eqb d sep) eqn:Ed.
    + exists ([] :: pre), last. split; [now rewrite E |].
      intros c Hne. now rewrite (Hc c Hne).
    + rewrite E. destruct pre as [| p ps].
      * exists [], (d :: last). split; [reflexivity |].
        intros c Hne. now rewrite (Hc c Hne).
      * exists ((d :: p) :: ps), last. split; [reflexivity |].
        intros c Hne. now rewrite (Hc c Hne).
Qed.

(** Whitespace at the very end of a body changes none of its lines. *)
Lemma body_lines_snoc_space (s : pystr) (c : N) :
  isspace c = true -> c <> nl -> body_lines (s ++ [c]) = body_lines s.
Proof.
  intros Hs Hne. unfold body_lines.
  destruct (str_split_last nl s) as (pre & last & -> & Hc).
  rewrite (Hc c Hne), !filter_app, !map_app. f_equal.
  cbn [filter]. rewrite (strip_snoc_space last c Hs).
  destruct (strip last) eqn:E; [reflexivity |].
  cbn [map]. now rewrite (strip_snoc_space last c Hs).
Qed.

Lemma body_lines_join_crlf (segments : list pystr) :
  body_lines (join [13; 10]%N segments) = body_lines (join [nl] segments).
Proof.
  induction segments as [| s rest IH]; [reflexivity |].
  destruct rest as [| s' rest]; [reflexivity |].
  change (join [13; 10]%N (s :: s' :: rest))
    with (s ++ [13; 10]%N ++ join [13; 10]%N (s' :: rest)).
  change (join [nl] (s :: s' :: rest))
    with (s ++ nl :: join [nl] (s' :: rest)).
  change (s ++ [13; 10]%N ++ join [13; 10]%N (s' :: rest))
    with (s ++ [13%N] ++ nl :: join [13; 10]%N (s' :: rest)).
  rewrite app_assoc, !body_lines_app, IH.
  now rewrite (body_lines_snoc_space s 13%N).
Qed.

Lemma contains_app (c : N) (a b : pystr) :
  contains c (a ++ b) = contains c a || contains c b.
Proof. apply existsb_app. Qed.

(** X5: a batch whose lines are ended by carriage return and line feed is
    answered exactly as the same batch with bare line feeds: the carriage
    return is stripped with the rest of the whitespace around a line. *)
Theorem crlf_batch_answered_alike (s s' : pystr) (rest : list pystr)
        (w : list chunk) :
  handle_batch_request (join [13; 10]%N (s :: s' :: rest)) w
  = handle_batch_request (join [nl] (s :: s' :: rest)) w.
Proof.
  apply handle_same_loop.
  - change (join [13; 10]%N (s :: s' :: rest))
      with (s ++ [13%N] ++ nl :: join [13; 10]%N (s' :: rest)).
    rewrite !contains_app. simpl. now rewrite !orb_true_r.
  - change (join [nl] (s :: s' :: rest))
      with (s ++ nl :: join [nl] (s' :: rest)).
    rewrite !contains_app. simpl. now rewrite !orb_true_r.
  - now rewrite body_lines_join_crlf.
Qed.

(* ------------------------------------------------------------------ *)
(** ** Bodies of whitespace *)

Lemma isspace_range (c : N) :
  isspace c = true -> (c <= 32 \/ 133 <= c)%N.
Proof.
  unfold isspace. intro H.
  repeat (apply orb_true_iff in H; destruct H as [H | H]);
    repeat (apply andb_true_iff in H; destruct H as [H ?]);
    repeat match goal with
           | H : (_ <=? _)%N = true |- _ => apply N.leb_le in H
           | H : (_ =? _)%N = true |- _ => apply N.eqb_eq in H
           end; lia.
Qed.


(** No whitespace character begins a JSON value. *)
Lemma scan_once_space (fuel depth : nat) (c : N) (r : pystr) :
  isspace c = true -> scan_once (S fuel) depth (c :: r) = Fail.
Proof.
  intro H. apply isspace_range in H.
  cbn [scan_once].
  repeat match goal with
         | |- context [(c =? ?k)%N] =>
             destruct (N.eqb_spec c k); [lia |]
         end.
  assert (Hw : forall k w, (32 < k < 133)%N ->
                           after_word (k :: w) (c :: r) = None).
  { intros k w Hk. simpl. destruct (N.eqb_spec k c); [lia | reflexivity]. }
  change (txt "null") with (110 :: txt "ull")%N.
  change (txt "true") with (116 :: txt "rue")%N.
  change (txt "false") with (102 :: txt "alse")%N.
  change (txt "NaN") with (78 :: txt "aN")%N.
  change (txt "Infinity") with (73 :: txt "nfinity")%N.
  change (txt "-Infinity") with (45 :: txt "Infinity")%N.
  rewrite !Hw by lia.
  unfold match_number.
  destruct (N.eqb_spec c 45); [lia |].
  unfold int_part.
  destruct (N.eqb_spec c 48); [lia |].
  unfold is_digit.
  destruct (N.leb_spec 48 c); [| reflexivity].
  destruct (N.leb_spec c 57); [lia | reflexivity].
Qed.




(* ------------------------------------------------------------------ *)
(** ** Lines that are no call *)

Lemma loop_body_other (line : pystr) (v : pyvalue) (w : list chunk) :
  json_loads line = Some v -> ~ pipeline_push v ->
  loop_body line w = (Ok Next, w).
Proof.
  intros Hj Hno. apply json_loads_decode in Hj.
  unfold loop_body. rewrite Hj.
  destruct v as [| b | z | f | s | [| msg rest] | kv]; try reflexivity.
  destruct (py_eq_str msg (txt "push")) eqn:Ep; [| reflexivity].
  apply py_eq_str_true in Ep. subst msg.
  destruct rest as [| expr rest]; [reflexivity |].
  destruct expr as [| b | z | f | s | [| tag more] | kv]; try reflexivity.
  destruct (py_eq_str tag (txt "pipeline")) eqn:Et; [| reflexivity].
  apply py_eq_str_true in Et. subst tag.
  exfalso. apply Hno. now exists more, rest.
Qed.

(** X7: a line that decodes to anything but a push of a pipeline
    expression (a JSON value that is no array, an unknown tag, a pull, a
    push of a literal) is neither answered nor reported: the batch is
    answered as if the line were absent. *)
Theorem other_lines_are_skipped (body1 body2 : pystr)
        (pre post : list pystr) (x : pystr) (v : pyvalue) (w : list chunk) :
  contains nl body1 = true -> contains nl body2 = true ->
  body_lines body1 = pre ++ x :: post ->
  body_lines body2 = pre ++ post ->
  json_loads x = Some v -> ~ pipeline_push v ->
  handle_batch_request body1 w = handle_batch_request body2 w.
Proof.
  intros H1 H2 E1 E2 Hj Hno.
  apply (handle_skip body1 body2 pre post x); trivial.
  intro w0. now apply (loop_body_other x v).
Qed.

(* ------------------------------------------------------------------ *)
(** ** The CORS headers *)



(* ------------------------------------------------------------------ *)
(** ** The decimal form of an integer *)

Lemma uint_digits_string (d : Decimal.uint) :
  map N_of_ascii (list_ascii_of_string (NilEmpty.string_of_uint d))
  = uint_digits d.
Proof. induction d; simpl; now rewrite ?IHd. Qed.

Lemma uint_digits_are_digits (d : Decimal.uint) :
  Forall (fun c => is_digit c = true) (uint_digits d).
Proof. induction d; simpl; constructor; trivial. Qed.

Lemma nzhead_not_zero (d d' : Decimal.uint) :
  Decimal.nzhead d <> Decimal.D0 d'.
Proof. induction d; simpl; try discriminate. exact IHd. Qed.

(** The decimal form of a positive number begins with a digit from 1 to 9. *)
Lemma to_uint_head (p : positive) :
  exists c d,
    uint_digits (Pos.to_uint p) = c :: uint_digits d
    /\ (49 <= c <= 57)%N.
Proof.
  pose proof (DecimalPos.Unsigned.to_of (Pos.to_uint p)) as H.
  rewrite DecimalPos.Unsigned.of_to in H. simpl in H.
  pose proof (DecimalPos.Unsigned.to_uint_nonzero p) as Hz.
  pose proof (DecimalPos.Unsigned.to_uint_nonnil p) as Hn.
  unfold Decimal.unorm in H.
  destruct (Pos.to_uint p) as [| d | d | d | d | d | d | d | d | d | d];
    try (eexists _, d; split; [reflexivity | lia]).
  - contradiction.
  - exfalso. simpl in H.
    destruct (Decimal.nzhead d) eqn:E; try discriminate H.
    + apply Hz. exact H.
    + now apply (nzhead_not_zero d u).
Qed.

Lemma digits_value_acc (d : Decimal.uint) (acc : positive) :
  fold_left (fun a c => (a * 10 + (c - 48))%N) (uint_digits d) (Npos acc)
  = Npos (Pos.of_uint_acc d acc).
Proof.
  revert acc.
  induction d; intro acc; cbn [uint_digits fold_left Pos.of_uint_acc];
    [reflexivity | ..]; rewrite <- IHd; f_equal; lia.
Qed.

Lemma digits_value_uint (d : Decimal.uint) :
  digits_value (uint_digits d) = Pos.of_uint d.
Proof.
  unfold digits_value.
  induction d; cbn [uint_digits fold_left Pos.of_uint];
    [reflexivity | exact IHd | ..];
    rewrite <- digits_value_acc; reflexivity.
Qed.

Lemma str_of_Z_pos (p : positive) :
  str_of_Z (Zpos p) = uint_digits (Pos.to_uint p).
Proof.
  unfold str_of_Z. simpl Z.to_int. unfold NilZero.string_of_int.
  unfold NilZero.string_of_uint.
  pose proof (DecimalPos.Unsigned.to_uint_nonnil p) as Hn.
  destruct (Pos.to_uint p) eqn:E; [contradiction | ..];
    rewrite <- E; apply uint_digits_string.
Qed.

Lemma str_of_Z_neg (p : positive) :
  str_of_Z (Zneg p) = 45%N :: uint_digits (Pos.to_uint p).
Proof.
  unfold str_of_Z. simpl Z.to_int. unfold NilZero.string_of_int.
  unfold NilZero.string_of_uint.
  pose proof (DecimalPos.Unsigned.to_uint_nonnil p) as Hn.
  destruct (Pos.to_uint p) eqn:E; [contradiction | ..];
    rewrite <- E; simpl; f_equal; apply uint_digits_string.
Qed.

(* ------------------------------------------------------------------ *)
(** ** Decoding a number *)

Lemma span_digits_closed (ds : pystr) :
  Forall (fun c => is_digit c = true) ds ->
  span_digits (ds ++ [93%N]) = (ds, [93%N]).
Proof.
  induction 1 as [| c ds Hc _ IH]; [reflexivity |].
  simpl. now rewrite Hc, IH.
Qed.

Lemma match_number_digits (neg : bool) (c : N) (ds : pystr) :
  (49 <= c <= 57)%N ->
  Forall (fun c => is_digit c = true) ds ->
  (List.length (c :: ds) <= int_max_str_digits)%nat ->
  match_number ((if neg then [45%N] else []) ++ c :: ds ++ [93%N])
  = Done (PInt (if neg then - Z.of_N (digits_value (c :: ds))
                else Z.of_N (digits_value (c :: ds))))
         [93%N].
Proof.
  intros Hc Hds Hlen. unfold match_number.
  assert (E : int_part (c :: ds ++ [93%N]) = Some (c :: ds, [93%N])).
  { unfold int_part. destruct (N.eqb_spec c 48); [lia |].
    unfold is_digit.
    destruct (N.leb_spec 48 c); [| lia].
    destruct (N.leb_spec c 57); [| lia].
    simpl andb. cbv iota. now rewrite (span_digits_closed ds Hds). }
  apply Nat.ltb_ge in Hlen.
  destruct neg; cbn [app].
  - rewrite N.eqb_refl, E.
    change (frac_part [93%N]) with (@None (pystr * pystr)). cbv beta iota.
    change (exp_part [93%N]) with (@None (Z * pystr)). cbv beta iota.
    now rewrite Hlen.
  - destruct (N.eqb_spec c 45); [lia |]. rewrite E.
    change (frac_part [93%N]) with (@None (pystr * pystr)). cbv beta iota.
    change (exp_part [93%N]) with (@None (Z * pystr)). cbv beta iota.
    now rewrite Hlen.
Qed.

(** A digit from 1 to 9, with or without a minus sign before it, begins
    nothing but a number. *)
Lemma scan_once_number (fuel depth : nat) (neg : bool) (c : N) (r : pystr) :
  (49 <= c <= 57)%N ->
  scan_once (S fuel) depth ((if neg then [45%N] else []) ++ c :: r)
  = match_number ((if neg then [45%N] else []) ++ c :: r).
Proof.
  intro Hc.
  assert (Hw : forall h k w s, h <> k -> after_word (k :: w) (h :: s) = None).
  { intros h k w s Hk. simpl. destruct (N.eqb_spec k h); [| reflexivity].
    now subst. }
  destruct neg; cbn [app scan_once].
  - change (txt "null") with (110 :: txt "ull")%N.
    change (txt "true") with (116 :: txt "rue")%N.
    change (txt "false") with (102 :: txt "alse")%N.
    change (txt "NaN") with (78 :: txt "aN")%N.
    change (txt "Infinity") with (73 :: txt "nfinity")%N.
    change (txt "-Infinity") with (45 :: 73 :: txt "nfinity")%N.
    cbn [N.eqb Pos.eqb].
    rewrite !(Hw 45%N) by discriminate.
    cbn [after_word]. rewrite N.eqb_refl.
    destruct (N.eqb_spec 73 c); [lia | reflexivity].
  - repeat match goal with
           | |- context [(c =? ?k)%N] =>
               destruct (N.eqb_spec c k); [lia |]
           end.
    change (txt "null") with (110 :: txt "ull")%N.
    change (txt "true") with (116 :: txt "rue")%N.
    change (txt "false") with (102 :: txt "alse")%N.
    change (txt "NaN") with (78 :: txt "aN")%N.
    change (txt "Infinity") with (73 :: txt "nfinity")%N.
    change (txt "-Infinity") with (45 :: txt "Infinity")%N.
    now rewrite !(Hw c) by lia.
Qed.

Lemma decimal_digits_pos (p : positive) :
  decimal_digits (Zpos p) = List.length (uint_digits (Pos.to_uint p))
  /\ decimal_digits (Zneg p) = List.length (uint_digits (Pos.to_uint p)).
Proof.
  unfold decimal_digits. cbn [Z.abs]. now rewrite str_of_Z_pos.
Qed.

(** [str(z)] followed by a closing bracket decodes to [z], when [z] is
    within the digit limit. *)
Lemma scan_once_int (fuel depth : nat) (z : Z) :
  (decimal_digits z <= int_max_str_digits)%nat ->
  scan_once (S fuel) depth (str_of_Z z ++ [93%N]) = Done (PInt z) [93%N].
Proof.
  intro Hz. destruct z as [| p | p].
  - reflexivity.
  - rewrite str_of_Z_pos. rewrite (proj1 (decimal_digits_pos p)) in Hz.
    destruct (to_uint_head p) as (c & d & E & Hc).
    rewrite E in Hz |- *.
    change ((c :: uint_digits d) ++ [93%N])
      with ((if false then [45%N] else []) ++ c :: uint_digits d ++ [93%N]).
    rewrite (scan_once_number fuel depth false c _ Hc).
    rewrite (match_number_digits false c _ Hc (uint_digits_are_digits d) Hz).
    rewrite <- E, digits_value_uint, DecimalPos.Unsigned.of_to.
    reflexivity.
  - rewrite str_of_Z_neg. rewrite (proj2 (decimal_digits_pos p)) in Hz.
    destruct (to_uint_head p) as (c & d & E & Hc).
    rewrite E in Hz |- *.
    change ((45%N :: c :: uint_digits d) ++ [93%N])
      with ((if true then [45%N] else []) ++ c :: uint_digits d ++ [93%N]).
    rewrite (scan_once_number fuel depth true c _ Hc).
    rewrite (match_number_digits true c _ Hc (uint_digits_are_digits d) Hz).
    rewrite <- E, digits_value_uint, DecimalPos.Unsigned.of_to.
    reflexivity.
Qed.

(* ------------------------------------------------------------------ *)
(** ** Decoding the line of the early return *)

Lemma parse_array_more (fuel depth : nat) (s r : pystr)
      (acc : list pyvalue) (v : pyvalue) :
  scan_once fuel depth s = Done v (44%N :: r) ->
  parse_array (S fuel) depth s acc
  = parse_array fuel depth (skip_ws r) (v :: acc).
Proof. intro H. cbn [parse_array]. now rewrite H. Qed.

Lemma parse_array_last (fuel depth : nat) (s r : pystr)
      (acc : list pyvalue) (v : pyvalue) :
  scan_once fuel depth s = Done v (93%N :: r) ->
  parse_array (S fuel) depth s acc = Done (PList (rev (v :: acc))) r.
Proof. intro H. cbn [parse_array]. now rewrite H. Qed.

(** The line the early return writes for an integer sum decodes to a
    resolve of that integer. *)
Lemma json_loads_resolve_int (z : Z) :
  (decimal_digits z <= int_max_str_digits)%nat ->
  json_loads (txt "['resolve',-1," ++ str_of_Z z ++ [93%N])
  = Some (PList [PStr (txt "resolve"); PInt (-1); PInt z]).
Proof.
  intro Hz.
  pose proof (fun f d => scan_once_int f d z Hz) as Ht.
  unfold json_loads, decode.
  generalize dependent (str_of_Z z ++ [93%N]). intros tail Ht.
  assert (Hf : exists k,
             (2 * List.length (txt "['resolve',-1," ++ tail) + 2
              = S (S (S (S (S (S (S k)))))))%nat).
  { rewrite length_app. simpl List.length.
    exists (2 * List.length tail + 23)%nat. lia. }
  destruct Hf as (k & ->).
  change (skip_ws (txt "['resolve',-1," ++ tail))
    with (91%N :: txt "'resolve',-1," ++ tail).
  set (depth := (63 + recursion_spare)%nat).
  change (scan_once (S (S (S (S (S (S (S k))))))) recursion_headroom
            (91%N :: txt "'resolve',-1," ++ tail))
    with (parse_array (S (S (S (S (S (S k)))))) depth
            (txt "'resolve',-1," ++ tail) []).
  rewrite (parse_array_more (S (S (S (S (S k))))) depth
             (txt "'resolve',-1," ++ tail) (txt "-1," ++ tail) []
             (PStr (txt "resolve")) eq_refl).
  change (skip_ws (txt "-1," ++ tail)) with (txt "-1," ++ tail).
  rewrite (parse_array_more (S (S (S (S k)))) depth (txt "-1," ++ tail) tail
             [PStr (txt "resolve")] (PInt (-1))).
  2: { destruct tail as [| c [| d tail]]; reflexivity. }
  assert (Hs : skip_ws tail = tail).
  { specialize (Ht 0%nat 0%nat). destruct tail as [| c tail]; [reflexivity |].
    simpl. destruct (is_ws c) eqn:E; [| reflexivity].
    exfalso.
    assert (Hc : isspace c = true).
    { unfold is_ws in E. unfold isspace.
      repeat (apply orb_true_iff in E; destruct E as [E | E]);
        apply N.eqb_eq in E; subst c; reflexivity. }
    rewrite (scan_once_space 0 0 c tail Hc) in Ht. discriminate. }
  rewrite Hs.
  rewrite (parse_array_last (S (S (S k))) depth tail []
             [PInt (-1); PStr (txt "resolve")] (PInt z) (Ht _ _)).
  reflexivity.
Qed.

Lemma body_lines_single (s : pystr) :
  s <> [] -> ~ In nl s -> strip s = s -> body_lines s = [s].
Proof.
  intros Hne Hnl Hs. unfold body_lines.
  rewrite (str_split_no_sep nl s Hnl). cbn [filter]. rewrite Hs.
  destruct s as [| c s]; [contradiction |].
  cbn [map]. now rewrite Hs.
Qed.

Lemma str_of_Z_chars (z : Z) (c : N) :
  In c (str_of_Z z) -> c = 45%N \/ is_digit c = true.
Proof.
  assert (Hd : forall d, In c (uint_digits d) -> is_digit c = true).
  { intros d. apply (proj1 (Forall_forall _ _) (uint_digits_are_digits d)). }
  destruct z as [| p | p].
  - intros [<- | []]. now right.
  - rewrite str_of_Z_pos. intro H. right. now apply (Hd _ H).
  - rewrite str_of_Z_neg. intros [<- | H]; [now left | right].
    now apply (Hd _ H).
Qed.

Lemma existsb_is_surrogate_resolve (t : pystr) :
  existsb is_surrogate (resolve_line t) = existsb is_surrogate t.
Proof.
  unfold resolve_line. rewrite !existsb_app.
  change (existsb is_surrogate (txt "['resolve',-1,")) with false.
  change (existsb is_surrogate (txt "]")) with false.
  change (existsb is_surrogate [nl]) with false.
  now rewrite !orb_false_r.
Qed.

Lemma str_of_Z_encodes (z : Z) :
  existsb is_surrogate (resolve_line (str_of_Z z)) = false.
Proof.
  rewrite existsb_is_surrogate_resolve.
  destruct (existsb is_surrogate (str_of_Z z)) eqn:E; [| reflexivity].
  apply existsb_exists in E. destruct E as (c & Hin & Hc).
  apply str_of_Z_chars in Hin. destruct Hin as [-> | Hd]; [discriminate |].
  unfold is_digit in Hd. unfold is_surrogate in Hc.
  apply andb_true_iff in Hd, Hc. destruct Hd as [_ Hd], Hc as [Hc _].
  apply N.leb_le in Hd, Hc. lia.
Qed.

(** The response body for an integer sum, read back by a client. *)
Lemma response_messages_int (z : Z) :
  (decimal_digits z <= int_max_str_digits)%nat ->
  response_messages (early_reply (resolve_line (str_of_Z z)))
  = [Some (PList [PStr (txt "resolve"); PInt (-1); PInt z])].
Proof.
  intro Hz. unfold response_messages.
  change (response_text (early_reply (resolve_line (str_of_Z z))))
    with (resolve_line (str_of_Z z) ++ []).
  rewrite app_nil_r. unfold resolve_line.
  change (txt "]" ++ [nl]) with ([93%N] ++ nl :: []).
  rewrite !app_assoc, body_lines_app, <- !app_assoc.
  change (body_lines []) with (@nil pystr). rewrite app_nil_r.
  rewrite body_lines_single.
  - cbn [map]. now rewrite json_loads_resolve_int.
  - discriminate.
  - intro H. apply in_app_or in H. destruct H as [H | H].
    + vm_compute in H. intuition discriminate.
    + apply in_app_or in H. destruct H as [H | [H | []]]; [| discriminate].
      apply str_of_Z_chars in H. destruct H as [H | H]; [discriminate |].
      discriminate.
  - change (txt "['resolve',-1," ++ str_of_Z z ++ [93%N])
      with (91%N :: txt "'resolve',-1," ++ str_of_Z z ++ [93%N]).
    rewrite app_assoc. now apply strip_fixed.
Qed.

(* ------------------------------------------------------------------ *)
(** ** What the call of [add] answers *)

(** X9: when the first line of a batch calls [add] with two integers
    whose sum has no more decimal digits than the digit limit allows, the
    response body is one line that [json.loads] decodes to the message
    [["resolve", -1, a + b]], with the exact sum: the decimal text written
    is read back to the same number.  When the sum has more digits, its
    conversion to text raises [ValueError] and nothing is written. *)
Theorem integer_sum_round_trip (body x : pystr) (post : list pystr)
        (a b : Z) (w : list chunk) :
  contains nl body = true ->
  body_lines body = x :: post ->
  add_push x (PList [PInt a; PInt b]) ->
  if (decimal_digits (a + b) <=? int_max_str_digits)%nat
  then handle_batch_request body w
       = (Ok tt, w ++ early_reply (resolve_line (str_of_Z (a + b))))
       /\ response_messages (early_reply (resolve_line (str_of_Z (a + b))))
          = [Some (PList [PStr (txt "resolve"); PInt (-1); PInt (a + b)])]
  else handle_batch_request body w = (Raise ValueError, w).
Proof.
  intros Hnl E Hp.
  rewrite (handle_first_match body [] post x (PList [PInt a; PInt b]) w);
    trivial.
  destruct (Nat.leb_spec (decimal_digits (a + b)) int_max_str_digits)
    as [Hd | Hd].
  - split; [| now apply response_messages_int].
    rewrite (invoke_add_sent (PList [PInt a; PInt b]) (PInt a) (PInt b)
               (PInt (a + b)) (str_of_Z (a + b)) w eq_refl eq_refl eq_refl).
    + reflexivity.
    + cbn [py_str py_repr]. unfold int_repr.
      apply Nat.ltb_ge in Hd. now rewrite Hd.
    + apply str_of_Z_encodes.
  - unfold invoke_add, bind, lift.
    cbn [py_getitem nth_error py_add py_str py_repr]. unfold int_repr.
    apply Nat.ltb_lt in Hd. now rewrite Hd.
Qed.


(* ------------------------------------------------------------------ *)
(** ** Method paths and arguments of other kinds *)

Lemma py_eq_str_false (v : pyvalue) (s : pystr) :
  v <> PStr s -> py_eq_str v s = false.
Proof.
  intro H. destruct (py_eq_str v s) eqn:E; [| reflexivity].
  now apply py_eq_str_true in E.
Qed.

Lemma loop_body_pipeline (line : pystr) (more rest : list pyvalue) :
  json_loads line
  = Some (PList (PStr (txt "push")
                 :: PList (PStr (txt "pipeline") :: more) :: rest)) ->
  loop_body line = simulate_call (PStr (txt "pipeline") :: more).
Proof.
  intro H. apply json_loads_decode in H. unfold loop_body. now rewrite H.
Qed.

(** X11: a call is passed over in silence, the batch being answered as if
    its line were absent, when its method path is empty, null, zero or
    false, when it is a string rather than an array (["add"] included), and
    when its first element is anything but the string ["add"]: no unknown
    method is ever reported. *)
Theorem other_methods_are_skipped (body1 body2 : pystr)
        (pre post : list pystr) (x : pystr) (id mp : pyvalue)
        (more rest : list pyvalue) (w : list chunk) :
  contains nl body1 = true -> contains nl body2 = true ->
  body_lines body1 = pre ++ x :: post ->
  body_lines body2 = pre ++ post ->
  json_loads x
  = Some (PList (PStr (txt "push")
                 :: PList (PStr (txt "pipeline") :: id :: mp :: more)
                 :: rest)) ->
  (py_truthy mp = false
   \/ (exists s, mp = PStr s)
   \/ (exists m path, mp = PList (m :: path) /\ m <> PStr (txt "add"))) ->
  handle_batch_request body1 w = handle_batch_request body2 w.
Proof.
  intros H1 H2 E1 E2 Hj Hmp.
  apply (handle_skip body1 body2 pre post x); trivial.
  intro w0. rewrite (loop_body_pipeline x _ _ Hj).
  unfold simulate_call, bind, lift, ret. cbn [nth].
  destruct Hmp as [Hf | [(s & ->) | (m & path & -> & Hm)]].
  - now rewrite Hf.
  - destruct s as [| c s]; [reflexivity |].
    cbn [py_truthy py_len py_getitem nth_error List.length Nat.ltb Nat.leb].
    cbn [py_eq_str]. change (txt "add") with [97; 100; 100]%N.
    cbn [pystr_eqb]. now rewrite andb_false_r.
  - cbn [py_truthy py_len py_getitem nth_error List.length Nat.ltb Nat.leb].
    now rewrite (py_eq_str_false m _ Hm).
Qed.

(** X12: a call whose method path or arguments are of a kind that has no
    length or no integer index makes the handler raise before anything is
    written: a method path that is a number other than zero or [true]
    raises [TypeError], one that is a non-empty object raises [KeyError];
    after the method [add], arguments that are a number, a boolean or null
    raise [TypeError], and an object of two members raises [KeyError]. *)
Theorem ill_typed_call_raises (body x : pystr) (post : list pystr)
        (id mp : pyvalue) (more rest : list pyvalue) (w : list chunk) :
  contains nl body = true ->
  body_lines body = x :: post ->
  json_loads x
  = Some (PList (PStr (txt "push")
                 :: PList (PStr (txt "pipeline") :: id :: mp :: more)
                 :: rest)) ->
  (py_truthy mp = true -> py_len mp = Raise TypeError ->
   handle_batch_request body w = (Raise TypeError, w))
  /\ (forall k kv, mp = PDict (k :: kv) ->
                   handle_batch_request body w = (Raise KeyError, w))
  /\ (forall path args more',
        mp = PList (PStr (txt "add") :: path) -> more = args :: more' ->
        (py_len args = Raise TypeError ->
         handle_batch_request body w = (Raise TypeError, w))
        /\ (forall p q, args = PDict [p; q] ->
                        handle_batch_request body w = (Raise KeyError, w))).
Proof.
  intros Hnl E Hj.
  assert (Hrun : forall e,
             simulate_call (PStr (txt "pipeline") :: id :: mp :: more) w
             = (Raise e, w) ->
             handle_batch_request body w = (Raise e, w)).
  { intros e H. rewrite handle_newline, E by trivial.
    simpl. unfold bind. now rewrite (loop_body_pipeline x _ _ Hj), H. }
  split; [| split].
  - intros Ht Hl. apply Hrun.
    unfold simulate_call, bind, lift, ret. cbn [nth]. now rewrite Ht, Hl.
  - intros k kv ->. apply Hrun. reflexivity.
  - intros path args more' -> ->. split.
    + intro Hl. apply Hrun.
      unfold simulate_call, bind, lift, ret. cbn [nth].
      cbn [py_truthy py_len py_getitem nth_error List.length Nat.ltb Nat.leb].
      now rewrite py_eq_str_refl, Hl.
    + intros p q ->. apply Hrun. reflexivity.
Qed.

(** X13: a string of exactly two characters in the place of the argument
    list is taken for two arguments, its characters: the response line
    carries the string itself, unquoted. *)
Theorem two_character_string_accepted (body x : pystr) (post : list pystr)
        (c d : N) (w : list chunk) :
  contains nl body = true ->
  body_lines body = x :: post ->
  add_push x (PStr [c; d]) ->
  is_surrogate c = false -> is_surrogate d = false ->
  handle_batch_request body w
  = (Ok tt, w ++ early_reply (resolve_line [c; d])).
Proof.
  intros Hnl E Hp Hc Hd.
  rewrite (handle_first_match body [] post x (PStr [c; d]) w); trivial.
  rewrite (invoke_add_sent (PStr [c; d]) (PStr [c]) (PStr [d])
             (PStr [c; d]) [c; d] w eq_refl eq_refl eq_refl eq_refl).
  - reflexivity.
  - rewrite existsb_is_surrogate_resolve. simpl. now rewrite Hc, Hd.
Qed.

(* ------------------------------------------------------------------ *)
(** ** The health check *)


End Interpreter.

(* ------------------------------------------------------------------ *)
(** ** The properties at given requests *)

(** The lemmas that follow are about given request bodies.  They are stated
    for the interpreter [cpython]; none of the bodies nests deeper than
    three arrays but [deep_body], which nests deeper than any default
    configuration allows. *)
#[export] Existing Instance cpython.

(** C1, as stated: the response to the three-line scenario batch would be
    the single message [["resolve", -2, 7]].  It is not. *)
Lemma scenario_reply_not_minus_two :
  response_messages (snd (handle_batch_request scenario_batch []))
  <> [Some (PList [PStr (txt "resolve"); PInt (-2); PInt 7])].
Proof. vm_compute. discriminate. Qed.





(** C4, as stated, fails: the call on the unallocated identifier -99 is
    resolved with the sum, and nothing is rejected. *)
Lemma unallocated_target_not_rejected :
  handle_batch_request unallocated_batch []
  = (Ok tt, early_reply (resolve_line (txt "3")))
  /\ ~ exists m,
         In m (response_messages
                 (snd (handle_batch_request unallocated_batch [])))
         /\ is_reject m = true.
Proof.
  split; [reflexivity |].
  intros (m & Hin & Hm). vm_compute in Hin.
  destruct Hin as [<- | []]. vm_compute in Hm. discriminate.
Qed.

Lemma target_identifier_is_ignored_witness :
  handle_batch_request unallocated_batch []
  = (Ok tt, [] ++ early_reply (resolve_line (txt "3"))).
Proof.
  apply (target_identifier_is_ignored unallocated_batch push_add_unallocated
           (PInt (-99)) []);
    reflexivity.
Defined.

(** C5, as stated, fails on [add] called with one argument: the response
    is the fixed resolve and holds no rejection. *)
Lemma arity_mismatch_not_rejected :
  handle_batch_request arity_batch []
  = (Ok tt, final_reply default_line)
  /\ ~ exists m,
         In m (response_messages (snd (handle_batch_request arity_batch [])))
         /\ is_reject m = true.
Proof.
  split; [reflexivity |].
  intros (m & Hin & Hm). vm_compute in Hin.
  destruct Hin as [<- | []]. vm_compute in Hm. discriminate.
Qed.

Lemma arity_mismatch_is_skipped_witness :
  handle_batch_request arity_batch []
  = handle_batch_request (txt "" ++ [nl]) [].
Proof.
  apply (arity_mismatch_is_skipped arity_batch (txt "" ++ [nl])
           [] [] push_add_one_argument (PInt (-1)) [] [PInt 1] [] [] []);
    try reflexivity.
  vm_compute. discriminate.
Defined.



Lemma legacy_single_message_witness :
  handle_batch_request (txt "42") [] = (Ok tt, [] ++ final_reply legacy_text)
  /\ json_loads legacy_text = Some legacy_value
  /\ contains nl legacy_text = false.
Proof.
  apply (legacy_single_message (txt "42") (PInt 42) []); reflexivity.
Defined.

(** C9, as stated, fails on a batch whose one line calls [add] with the
    number 5 in the place of the argument list: no line is a call of [add]
    with two arguments, yet the fixed line is not sent; [len(args)] raises
    [TypeError] and nothing is written. *)
Lemma unsized_arguments_raise :
  contains nl unsized_batch = true
  /\ Forall (fun l => ~ matches l) (body_lines unsized_batch)
  /\ handle_batch_request unsized_batch [] = (Raise TypeError, []).
Proof.
  split; [reflexivity | split; [| reflexivity]].
  change (body_lines unsized_batch) with [push_add_unsized].
  constructor; [| constructor].
  intros (args & [id path more rest H] & Hl).
  vm_compute in H. injection H as _ _ <- _ _. discriminate.
Qed.

Lemma first_add_call_decides_witness :
  first_match_outcome scenario_batch [] (early_reply (resolve_line (txt "7"))).
Proof.
  apply (first_add_call_decides scenario_batch []
           (early_reply (resolve_line (txt "7"))));
    reflexivity.
Defined.

Lemma unsupported_operands_raise_witness :
  exists e,
    handle_batch_request number_string_batch [] = (Raise e, [])
    /\ (for_lines [] [] = (Ok Next, []) -> e = TypeError).
Proof.
  apply (unsupported_operands_raise number_string_batch [] []
           push_add_number_string (PList [PInt 1; PStr (txt "a")])
           (PInt 1) (PStr (txt "a")) []);
    try reflexivity.
  - constructor.
  - now apply add_push_intro with (id := PInt (-1)) (path := []) (more := [])
                                  (rest := []).
Defined.

Lemma exception_leaves_no_body_witness :
  response_text [] = response_text []
  /\ (@nil chunk = []
      \/ (TypeError = UnicodeEncodeError /\ [] = [] ++ early_headers)).
Proof.
  apply (exception_leaves_no_body number_string_batch TypeError [] []).
  reflexivity.
Defined.


Lemma body_lines_clean_witness :
  push_add_3_4 <> [] /\ ~ In nl push_add_3_4 /\ strip push_add_3_4 = push_add_3_4.
Proof.
  apply (body_lines_clean scenario_batch push_add_3_4).
  vm_compute. right. left. reflexivity.
Defined.


Lemma other_lines_are_skipped_witness :
  handle_batch_request (batch [txt "['frobnicate', 1]"; push_add_3_4]) []
  = handle_batch_request (batch [push_add_3_4]) [].
Proof.
  apply (other_lines_are_skipped
           (batch [txt "['frobnicate', 1]"; push_add_3_4])
           (batch [push_add_3_4])
           [] [push_add_3_4] (txt "['frobnicate', 1]")
           (PList [PStr (txt "frobnicate"); PInt 1]) []);
    try reflexivity.
  intros (more & rest & H). discriminate.
Defined.


Lemma integer_sum_round_trip_witness :
  if (decimal_digits (1 + 2) <=? int_max_str_digits)%nat
  then handle_batch_request unallocated_batch []
       = (Ok tt, [] ++ early_reply (resolve_line (str_of_Z (1 + 2))))
       /\ response_messages (early_reply (resolve_line (str_of_Z (1 + 2))))
          = [Some (PList [PStr (txt "resolve"); PInt (-1); PInt (1 + 2)])]
  else handle_batch_request unallocated_batch [] = (Raise ValueError, []).
Proof.
  apply (integer_sum_round_trip unallocated_batch push_add_unallocated []
           1 2 []);
    try reflexivity.
  now apply add_push_intro with (id := PInt (-99)) (path := []) (more := [])
                                (rest := []).
Defined.


Lemma other_methods_are_skipped_witness :
  handle_batch_request
    (batch [txt "['push', ['pipeline', 0, 'add', [1, 2]]]"; push_add_3_4]) []
  = handle_batch_request (batch [push_add_3_4]) [].
Proof.
  apply (other_methods_are_skipped
           (batch [txt "['push', ['pipeline', 0, 'add', [1, 2]]]";
                   push_add_3_4])
           (batch [push_add_3_4])
           [] [push_add_3_4]
           (txt "['push', ['pipeline', 0, 'add', [1, 2]]]")
           (PInt 0) (PStr (txt "add")) [PList [PInt 1; PInt 2]] [] []);
    try reflexivity.
  right. left. now exists (txt "add").
Defined.

Lemma ill_typed_call_raises_witness :
  handle_batch_request
    (batch [txt "['push', ['pipeline', 0, ['add'], {'a': 1, 'b': 2}]]"]) []
  = (Raise KeyError, []).
Proof.
  assert (H := ill_typed_call_raises
           (batch [txt "['push', ['pipeline', 0, ['add'], {'a': 1, 'b': 2}]]"])
           (txt "['push', ['pipeline', 0, ['add'], {'a': 1, 'b': 2}]]") []
           (PInt 0) (PList [PStr (txt "add")])
           [PDict [(txt "a", PInt 1); (txt "b", PInt 2)]] [] []
           eq_refl eq_refl eq_refl).
  destruct H as (_ & _ & H).
  destruct (H [] (PDict [(txt "a", PInt 1); (txt "b", PInt 2)]) []
              eq_refl eq_refl) as [_ H'].
  exact (H' (txt "a", PInt 1) (txt "b", PInt 2) eq_refl).
Defined.

Lemma two_character_string_accepted_witness :
  handle_batch_request
    (batch [txt "['push', ['pipeline', 0, ['add'], 'ab']]"]) []
  = (Ok tt, [] ++ early_reply (resolve_line [97; 98]%N)).
Proof.
  apply (two_character_string_accepted
           (batch [txt "['push', ['pipeline', 0, ['add'], 'ab']]"])
           (txt "['push', ['pipeline', 0, ['add'], 'ab']]") []
           97%N 98%N []);
    try reflexivity.
  now apply add_push_intro with (id := PInt 0) (path := []) (more := [])
                                (rest := []).
Defined.
